(** * A shallow embedding of the jsr npm CLI (jsr-io/jsr-npm)

    Strings are Rocq [string]s: sequences of 8-bit code units.  The
    embedding covers the package identity parser ([JsrPackage]), the
    project locator ([findProjectDir]), the registry configuration writers
    ([setupNpmRc], [setupBunfigToml]), the package manager adapters, the
    version selection of [showPackageInfo] and the top-level [run]. *)

From Stdlib Require Import String Ascii List ZArith Bool Lia DecimalString.
Import ListNotations.
Open Scope string_scope.

(** ** Errors and a small error monad *)

(** The error classes thrown by the code: [JsrPackageNameError],
    [ExecError] (carrying the child's exit code) and plain [Error]s. *)
Inductive JsError :=
| JsrPackageNameError (msg : string)
| ExecError (code : Z)
| PlainError (msg : string).

Inductive res (A : Type) :=
| Ok (a : A)
| Throw (e : JsError).
Arguments Ok {A} a.
Arguments Throw {A} e.

Definition bind {A B} (m : res A) (k : A -> res B) : res B :=
  match m with
  | Ok a => k a
  | Throw e => Throw e
  end.

Notation "x <- m ;; k" := (bind m (fun x => k))
  (at level 61, m at next level, right associativity).

(** ** Characters *)

Definition code (c : ascii) : nat := nat_of_ascii c.

Definition chr (n : nat) : string := String (ascii_of_nat n) EmptyString.

(** The double quote and the line feed, as one-character strings. *)
Definition DQ : string := chr 34.
Definition LF : string := chr 10.
Definition CR : string := chr 13.

(** [a-z] *)
Definition is_lower (c : ascii) : bool :=
  Nat.leb 97 (code c) && Nat.leb (code c) 122.

(** [0-9] *)
Definition is_digit (c : ascii) : bool :=
  Nat.leb 48 (code c) && Nat.leb (code c) 57.

(** [a-z0-9-] *)
Definition is_word (c : ascii) : bool :=
  is_lower c || is_digit c || Nat.eqb (code c) 45.

(** JavaScript line terminators among 8-bit code units (LF and CR); the
    regular expression [.] matches every other code unit. *)
Definition is_line_terminator (c : ascii) : bool :=
  Nat.eqb (code c) 10 || Nat.eqb (code c) 13.

(** ** Package identity parser ([src/src/utils.ts], lines 17-60) *)

Record JsrPackage := mkJsrPackage {
  scope : string;
  name : string;
  version : option string
}.

(** Longest prefix of [a-z0-9-] characters, and the rest. *)
Fixpoint span_word (s : string) : string * string :=
  match s with
  | String c r =>
      if is_word c then let (w, rest) := span_word r in (String c w, rest)
      else (EmptyString, s)
  | EmptyString => (EmptyString, EmptyString)
  end.

Fixpoint no_line_terminator (s : string) : bool :=
  match s with
  | String c r => negb (is_line_terminator c) && no_line_terminator r
  | EmptyString => true
  end.

(** [([a-z][a-z0-9-]+)] applied to a maximal run of [a-z0-9-]. *)
Definition scope_ok (w : string) : bool :=
  match w with
  | String c (String _ _) => is_lower c
  | _ => false
  end.

(** The common tail [([a-z0-9-]+)(@(.+))?$] of both expressions, run on the
    text after the scope separator.  Every delimiter that follows a
    character class ([/], [__], [@], end of input) lies outside that class,
    so each class matches exactly the maximal run and no backtracking
    alternative exists. *)
Definition match_name_version (s : string)
  : option (string * option string) :=
  let (nm, r) := span_word s in
  match nm with
  | EmptyString => None
  | _ =>
      match r with
      | EmptyString => Some (nm, None)
      | String "@" v =>
          match v with
          | EmptyString => None
          | _ => if no_line_terminator v then Some (nm, Some v) else None
          end
      | _ => None
      end
  end.

(** [EXTRACT_REG = /^@([a-z][a-z0-9-]+)\/([a-z0-9-]+)(@(.+))?$/] *)
Definition match_EXTRACT_REG (s : string)
  : option (string * string * option string) :=
  match s with
  | String "@" r =>
      let (sc, r1) := span_word r in
      if scope_ok sc then
        match r1 with
        | String "/" r2 =>
            match match_name_version r2 with
            | Some (nm, v) => Some (sc, nm, v)
            | None => None
            end
        | _ => None
        end
      else None
  | _ => None
  end.

(** [EXTRACT_REG_PROXY = /^@jsr\/([a-z][a-z0-9-]+)__([a-z0-9-]+)(@(.+))?$/] *)
Definition match_EXTRACT_REG_PROXY (s : string)
  : option (string * string * option string) :=
  match s with
  | String "@" (String "j" (String "s" (String "r" (String "/" r)))) =>
      let (sc, r1) := span_word r in
      if scope_ok sc then
        match r1 with
        | String "_" (String "_" r2) =>
            match match_name_version r2 with
            | Some (nm, v) => Some (sc, nm, v)
            | None => None
            end
        | _ => None
        end
      else None
  | _ => None
  end.

Definition invalid_name_message (input : string) : string :=
  "Invalid jsr package name: A jsr package name must have the format @<scope>/<name>, but got "
  ++ DQ ++ input ++ DQ.

(** [JsrPackage.from] *)
Definition from (input : string) : res JsrPackage :=
  match match_EXTRACT_REG input with
  | Some (sc, nm, v) => Ok (mkJsrPackage sc nm v)
  | None =>
      match match_EXTRACT_REG_PROXY input with
      | Some (sc, nm, v) => Ok (mkJsrPackage sc nm v)
      | None => Throw (JsrPackageNameError (invalid_name_message input))
      end
  end.

Definition version_suffix (p : JsrPackage) : string :=
  match version p with
  | Some v => "@" ++ v
  | None => ""
  end.

(** [toNpmPackage()] *)
Definition toNpmPackage (p : JsrPackage) : string :=
  "@jsr/" ++ scope p ++ "__" ++ name p ++ version_suffix p.

(** [toString()] *)
Definition toString (p : JsrPackage) : string :=
  "@" ++ scope p ++ "/" ++ name p ++ version_suffix p.

(** Full matches of the two capture patterns, [[a-z][a-z0-9-]+] and
    [[a-z0-9-]+]. *)
Fixpoint all_word (s : string) : bool :=
  match s with
  | String c r => is_word c && all_word r
  | EmptyString => true
  end.

Definition matches_scope_pattern (w : string) : bool := scope_ok w && all_word w.

Definition matches_name_pattern (w : string) : bool :=
  negb (String.eqb w "") && all_word w.

(** ** Project locator ([src/src/utils.ts], lines 71-149) *)

Inductive PkgManagerName := npm | yarn | pnpm | bun.

(** A directory is the list of its path segments, innermost first, so that
    [path.dirname] drops the head and the filesystem root is [[]], the
    only directory that is its own parent. *)
Definition dir := list string.

Definition dirname (d : dir) : dir :=
  match d with
  | _ :: parent => parent
  | [] => []
  end.

(** [path.join(dir, file)] *)
Definition path := (dir * string)%type.
Definition join (d : dir) (f : string) : path := (d, f).

(** What [readJson<PkgJson>] yields for a [package.json] as far as
    [findProjectDir] looks at it: either it throws (unparsable text, or
    [null], whose [.workspaces] throws), or an object whose [workspaces]
    field is an array of globs ([Some globs]) or not an array ([None]). *)
Inductive PkgJsonRead :=
| JsonThrows
| JsonObject (workspaces : option (list string)).

(** The filesystem as the locator observes it: [fileExists] on each path
    and the parse of each [package.json]. *)
Record FileSystem := mkFileSystem {
  fileExists : path -> bool;
  readPkgJson : dir -> PkgJsonRead
}.

Record ProjectInfo := mkProjectInfo {
  projectDir : dir;
  pkgManagerName : option PkgManagerName;
  pkgJsonPath : option path;
  root : option dir
}.

Definition set_project (r : ProjectInfo) (d : dir) (p : path) : ProjectInfo :=
  mkProjectInfo d (pkgManagerName r) (Some p) (root r).

Definition set_root (r : ProjectInfo) (d : dir) : ProjectInfo :=
  mkProjectInfo (projectDir r) (pkgManagerName r) (pkgJsonPath r) (Some d).

Definition set_pkgManagerName (r : ProjectInfo) (n : PkgManagerName)
  : ProjectInfo :=
  mkProjectInfo (projectDir r) (Some n) (pkgJsonPath r) (root r).

Definition initial_info (cwd : dir) : ProjectInfo :=
  mkProjectInfo cwd None None None.

(** The [package.json] step at the top of each call. *)
Definition visit_pkg_json (fs : FileSystem) (d : dir) (result : ProjectInfo)
  : res ProjectInfo :=
  match pkgJsonPath result with
  | None =>
      let p := join d "package.json" in
      if fileExists fs p then Ok (set_project result d p) else Ok result
  | Some _ =>
      let p := join d "package.json" in
      if fileExists fs p then
        match readPkgJson fs d with
        | JsonThrows => Throw (PlainError "invalid package.json")
        | JsonObject (Some _) => Ok (set_root result d)
        | JsonObject None =>
            if fileExists fs (join d "pnpm-workspace.yaml")
            then Ok (set_root result d) else Ok result
        end
      else Ok result
  end.

(** [findProjectDir(cwd, dir, result)] *)
Fixpoint findProjectDir_at (fs : FileSystem) (d : dir) (result : ProjectInfo)
  : res ProjectInfo :=
  r <- visit_pkg_json fs d result ;;
  if fileExists fs (join d "package-lock.json") then Ok (set_pkgManagerName r npm)
  else if fileExists fs (join d "bun.lockb") then Ok (set_pkgManagerName r bun)
  else if fileExists fs (join d "yarn.lock") then Ok (set_pkgManagerName r yarn)
  else if fileExists fs (join d "pnpm-lock.yaml") then Ok (set_pkgManagerName r pnpm)
  else
    match d with
    | [] => Ok r
    | _ :: parent => findProjectDir_at fs parent r
    end.

Definition findProjectDir (fs : FileSystem) (cwd : dir) : res ProjectInfo :=
  findProjectDir_at fs cwd (initial_info cwd).

(** A filesystem given by the list of its files and the parse of its
    [package.json]s, for concrete scenarios. *)
Definition dir_eqb (a b : dir) : bool :=
  if list_eq_dec string_dec a b then true else false.

Definition fs_of (files : list path) (json : dir -> PkgJsonRead) : FileSystem :=
  mkFileSystem
    (fun p => existsb (fun q => dir_eqb (fst p) (fst q) && String.eqb (snd p) (snd q)) files)
    json.

(** ** Registry configuration writers ([src/src/commands.ts], lines 17-80) *)

Definition JSR_NPM_REGISTRY_URL : string := "https://npm.jsr.io".
Definition JSR_NPMRC : string := "@jsr:registry=" ++ JSR_NPM_REGISTRY_URL ++ LF.
Definition JSR_BUNFIG : string :=
  "[install.scopes]" ++ LF ++ DQ ++ "@jsr" ++ DQ ++ " = " ++ DQ
  ++ JSR_NPM_REGISTRY_URL ++ DQ ++ LF.

(** The state of the config file before a call: absent ([ENOENT]),
    readable with some content, or failing to read with another error. *)
Inductive FileState :=
| Absent
| Contents (content : string)
| Unreadable.

(** What a writer does: the content of its one [writeFile], or [None]
    when it writes nothing. *)
Definition WriterResult := res (option string).

Definition apply_write (st : FileState) (w : WriterResult) : FileState :=
  match w with
  | Ok (Some c) => Contents c
  | _ => st
  end.

(** [String.prototype.includes] *)
Fixpoint includes (s sub : string) : bool :=
  prefix sub s ||
  match s with
  | String _ r => includes r sub
  | EmptyString => false
  end.

(** [String.prototype.endsWith] *)
Definition endsWith (s suffix : string) : bool :=
  let n := String.length s in
  let m := String.length suffix in
  Nat.leb m n && String.eqb (substring (n - m) m s) suffix.

(** [getNewLineChars]: [source[-1]] and [source[-2]] are [undefined]. *)
Definition getNewLineChars (source : string) : string :=
  match index 0 LF source with
  | Some (S k) =>
      match get k source with
      | Some c => if Nat.eqb (code c) 13 then CR ++ LF else LF
      | None => LF
      end
  | _ => LF
  end.

Definition read_error : JsError := PlainError "failed to read config file".

Definition setupNpmRc (st : FileState) : WriterResult :=
  match st with
  | Contents content =>
      if negb (includes content "@jsr:registry=") then
        let nl := getNewLineChars content in
        let spacer := if negb (endsWith content nl) then nl else "" in
        Ok (Some (content ++ spacer ++ JSR_NPMRC))
      else Ok None
  | Absent => Ok (Some JSR_NPMRC)
  | Unreadable => Throw read_error
  end.

(** [\s] among 8-bit code units: TAB, LF, VT, FF, CR, SPACE and NBSP. *)
Definition is_space (c : ascii) : bool :=
  let n := code c in
  (Nat.leb 9 n && Nat.leb n 13) || Nat.eqb n 32 || Nat.eqb n 160.

(** [\s+=] at the start of [s]; [=] is not in [\s], so the greedy run of
    spaces is the only candidate. *)
Fixpoint spaces_then_eq (first : bool) (s : string) : bool :=
  match s with
  | String c r =>
      if is_space c then spaces_then_eq false r
      else negb first && Nat.eqb (code c) 61
  | EmptyString => false
  end.

(** ["@jsr"\s+=] at the start of [s]. *)
Definition jsr_key_at (s : string) : bool :=
  let key := DQ ++ "@jsr" ++ DQ in
  prefix key s && spaces_then_eq true (substring 6 (String.length s - 6) s).

(** [/^"@jsr"\s+=/gm.test(content)]: with the [m] flag [^] matches at the
    start of input and after each line terminator.  A fresh [RegExp] is
    built by the literal at each call, so [lastIndex] starts at 0. *)
Fixpoint bunfig_key_test (at_line_start : bool) (s : string) : bool :=
  (at_line_start && jsr_key_at s) ||
  match s with
  | String c r => bunfig_key_test (is_line_terminator c) r
  | EmptyString => false
  end.

Definition setupBunfigToml (st : FileState) : WriterResult :=
  match st with
  | Contents content =>
      if negb (bunfig_key_test true content) then
        Ok (Some (content ++ JSR_BUNFIG))
      else Ok None
  | Absent => Ok (Some JSR_BUNFIG)
  | Unreadable => Throw read_error
  end.

(** ** Package manager adapters ([src/src/pkg_manager.ts], lines 102-339) *)

Inductive Mode := dev | prod | optional.

Definition modeToFlag (mode : Mode) : string :=
  match mode with
  | dev => "--save-dev"
  | optional => "--save-optional"
  | prod => ""
  end.

Definition modeToFlagYarn (mode : Mode) : string :=
  match mode with
  | dev => "--dev"
  | optional => "--optional"
  | prod => ""
  end.

Definition toPackageArgs (pkgs : list JsrPackage) : list string :=
  map (fun pkg => "@" ++ scope pkg ++ "/" ++ name pkg ++ "@npm:" ++ toNpmPackage pkg)
    pkgs.

(** The adapter classes; [YarnBerry] extends [Yarn]. *)
Inductive PackageManager := Npm | Yarn | YarnBerry | Pnpm | Bun.

(** A subprocess started by [execWithLog(cmd, args, cwd)]. *)
Record Command := mkCommand { cmd : string; args : list string }.

(** [args.push(mode)] only when the flag is not empty. *)
Definition with_mode (verb flag : string) (rest : list string) : list string :=
  verb :: (if String.eqb flag "" then rest else flag :: rest).

(** [pkg.version ??= `^${await getLatestPackageVersion(pkg)}`]; the
    registry lookup is a parameter.  The lookups run under [Promise.all];
    here the first failing one in list order is reported. *)
Fixpoint resolve_versions (latest : JsrPackage -> res string)
  (pkgs : list JsrPackage) : res (list JsrPackage) :=
  match pkgs with
  | [] => Ok []
  | p :: t =>
      p' <- match version p with
            | Some _ => Ok p
            | None => v <- latest p ;; Ok (mkJsrPackage (scope p) (name p) (Some ("^" ++ v)))
            end ;;
      t' <- resolve_versions latest t ;;
      Ok (p' :: t')
  end.

Definition install (latest : JsrPackage -> res string) (pm : PackageManager)
  (packages : list JsrPackage) (mode : Mode) : res Command :=
  match pm with
  | Npm => Ok (mkCommand "npm" (with_mode "install" (modeToFlag mode) (toPackageArgs packages)))
  | Yarn => Ok (mkCommand "yarn" (with_mode "add" (modeToFlagYarn mode) (toPackageArgs packages)))
  | YarnBerry =>
      pkgs <- resolve_versions latest packages ;;
      Ok (mkCommand "yarn" (with_mode "add" (modeToFlagYarn mode) (toPackageArgs pkgs)))
  | Pnpm => Ok (mkCommand "pnpm" (with_mode "add" (modeToFlag mode) (toPackageArgs packages)))
  | Bun => Ok (mkCommand "bun" (with_mode "add" (modeToFlagYarn mode) (toPackageArgs packages)))
  end.

Definition remove (pm : PackageManager) (packages : list JsrPackage) : Command :=
  let names := map toString packages in
  match pm with
  | Npm => mkCommand "npm" ("remove" :: names)
  | Yarn | YarnBerry => mkCommand "yarn" ("remove" :: names)
  | Pnpm => mkCommand "yarn" ("remove" :: names)
  | Bun => mkCommand "bun" ("remove" :: names)
  end.

Definition runScript (pm : PackageManager) (script : string) : Command :=
  match pm with
  | Npm => mkCommand "npm" ["run"; script]
  | Yarn | YarnBerry => mkCommand "yarn" [script]
  | Pnpm => mkCommand "pnpm" [script]
  | Bun => mkCommand "bun" ["run"; script]
  end.

(** ** Version selection of [showPackageInfo] ([src/src/commands.ts],
    lines 203-225) *)

(** The [latest] field of the registry's [meta.json]. *)
Inductive Latest :=
| LatestMissing
| LatestNull
| LatestVersion (v : string).

Record PackageMeta := mkPackageMeta {
  latest : Latest;
  versions : list string   (** [Object.keys(meta.versions)] *)
}.

Section ShowInfo.

(** The comparator handed to [versions.sort]: the [semiver] library's
    version comparison, negative when its first argument sorts first. *)
Variable semiver : string -> string -> Z.

(** [Array.prototype.sort] with a comparator: a stable sort.  For a
    comparator that is a total preorder on the elements every stable sort
    gives this list. *)
Fixpoint insert_sorted (x : string) (l : list string) : list string :=
  match l with
  | [] => [x]
  | y :: t => if Z.gtb (semiver y x) 0 then x :: y :: t else y :: insert_sorted x t
  end.

Definition sort (l : list string) : list string :=
  fold_left (fun acc x => insert_sorted x acc) l [].

Definition set_version (p : JsrPackage) (v : option string) : JsrPackage :=
  mkJsrPackage (scope p) (name p) v.

(** The version resolution of [showPackageInfo]; [versions[0]] of an
    empty array would be [undefined] ([None]), which the length check
    rules out. *)
Definition resolveShowVersion (pkg : JsrPackage) (meta : PackageMeta)
  : res JsrPackage :=
  match version pkg with
  | Some _ => Ok pkg
  | None =>
      match latest meta with
      | LatestMissing => Throw (PlainError ("Missing latest version for " ++ toString pkg))
      | LatestNull =>
          let vs := versions meta in
          if Nat.eqb (List.length vs) 0 then
            Throw (PlainError ("Could not find published version for " ++ toString pkg))
          else Ok (set_version pkg (hd_error (sort vs)))
      | LatestVersion v => Ok (set_version pkg (Some v))
      end
  end.

(** [showPackageInfo(raw)] up to the version it settles on; the registry
    fetch [getPackageMeta] is a parameter. *)
Definition showPackageInfo (getPackageMeta : JsrPackage -> res PackageMeta)
  (raw : string) : res JsrPackage :=
  pkg <- from raw ;;
  meta <- getPackageMeta pkg ;;
  resolveShowVersion pkg meta.

End ShowInfo.

(** Semantic Versioning precedence (semver.org, item 11) for versions
    [MAJOR.MINOR.PATCH[-PRERELEASE]], a comparator to run the selection
    on concrete version lists. *)
Fixpoint split_on (sep : ascii) (s : string) : list string :=
  match s with
  | EmptyString => [EmptyString]
  | String c r =>
      if ascii_dec c sep then EmptyString :: split_on sep r
      else match split_on sep r with
           | h :: t => String c h :: t
           | [] => [String c EmptyString]
           end
  end.

Fixpoint split_first_dash (s : string) : string * option string :=
  match s with
  | EmptyString => (EmptyString, None)
  | String c r =>
      if ascii_dec c "-" then (EmptyString, Some r)
      else let (core, pre) := split_first_dash r in (String c core, pre)
  end.

Fixpoint numeric_value (s : string) (acc : nat) : option nat :=
  match s with
  | EmptyString => Some acc
  | String c r =>
      if is_digit c then numeric_value r (acc * 10 + (code c - 48)) else None
  end.

Definition numeric_identifier (s : string) : option nat :=
  match s with
  | EmptyString => None
  | _ => numeric_value s 0
  end.

Definition identifier_compare (a b : string) : comparison :=
  match numeric_identifier a, numeric_identifier b with
  | Some x, Some y => Nat.compare x y
  | Some _, None => Lt
  | None, Some _ => Gt
  | None, None => String.compare a b
  end.

Fixpoint identifiers_compare (la lb : list string) : comparison :=
  match la, lb with
  | [], [] => Eq
  | [], _ => Lt
  | _, [] => Gt
  | a :: ta, b :: tb =>
      match identifier_compare a b with
      | Eq => identifiers_compare ta tb
      | c => c
      end
  end.

Definition comparison_to_Z (c : comparison) : Z :=
  match c with Lt => -1 | Eq => 0 | Gt => 1 end.

Definition semver_precedence (a b : string) : Z :=
  let (ca, pa) := split_first_dash a in
  let (cb, pb) := split_first_dash b in
  match identifiers_compare (split_on "." ca) (split_on "." cb) with
  | Eq =>
      match pa, pb with
      | None, None => 0
      | None, Some _ => 1
      | Some _, None => -1
      | Some x, Some y =>
          comparison_to_Z (identifiers_compare (split_on "." x) (split_on "." y))
      end
  | c => comparison_to_Z c
  end.

(** ** Subprocesses and the top-level runner *)

(** [exec] resolves on exit code 0 and rejects with [ExecError(code ?? 1)]
    otherwise; [None] is the [null] code of a child killed by a signal. *)
Definition exec_exit (exit_code : option Z) : res unit :=
  match exit_code with
  | Some c => if Z.eqb c 0 then Ok tt else Throw (ExecError c)
  | None => Throw (ExecError 1)
  end.

Definition exec_error_message (c : Z) : string :=
  "Child process exited with: " ++ NilZero.string_of_int (Z.to_int c).

(** A command body, as the sequence of awaited steps it performs: a
    subprocess with its exit code, or any other step that returns or
    throws. *)
Inductive Step :=
| Subprocess (exit_code : option Z)
| Other (outcome : res unit).

Definition run_step (s : Step) : res unit :=
  match s with
  | Subprocess c => exec_exit c
  | Other o => o
  end.

Fixpoint run_steps (steps : list Step) : res unit :=
  match steps with
  | [] => Ok tt
  | s :: rest => _ <- run_step s ;; run_steps rest
  end.

(** How [run] ends: completion, [process.exit(code)] after printing a
    message, or a rethrown error. *)
Inductive RunOutcome :=
| Completed
| Exited (code : Z) (printed : string)
| Rethrown (e : JsError).

Definition error_message (e : JsError) : string :=
  match e with
  | JsrPackageNameError m => m
  | ExecError c => exec_error_message c
  | PlainError m => m
  end.

(** [run(fn)] of [src/unnamed/part_005], lines 275-293. *)
Definition run (body : res unit) : RunOutcome :=
  match body with
  | Ok _ => Completed
  | Throw (JsrPackageNameError m) => Exited 1 m
  | Throw (ExecError c) => Exited c (exec_error_message c)
  | Throw e => Rethrown e
  end.

(** The Node.js host: the promise returned by [run] is not awaited, so a
    rethrown error is an unhandled rejection, which Node (since v15) prints
    with its stack and ends the process with exit code 1. *)
Definition process_exit_code (o : RunOutcome) : Z :=
  match o with
  | Completed => 0
  | Exited c _ => c
  | Rethrown _ => 1
  end.

(** ** Time formatting ([src/src/utils.ts], lines 151-200) *)

(** A number in a template literal or after [+ "..."], for the integer
    millisecond differences the callers pass ([Date.now()] values). *)
Definition number_to_string (z : Z) : string := NilZero.string_of_int (Z.to_int z).

Definition PERIODS_year : Z := 365 * 24 * 60 * 60 * 1000.
Definition PERIODS_month : Z := 30 * 24 * 60 * 60 * 1000.
Definition PERIODS_week : Z := 7 * 24 * 60 * 60 * 1000.
Definition PERIODS_day : Z := 24 * 60 * 60 * 1000.
Definition PERIODS_hour : Z := 60 * 60 * 1000.
Definition PERIODS_minute : Z := 60 * 1000.
Definition PERIODS_seconds : Z := 1000.

(** [Math.floor(diff / p)] is [Z.div], which rounds toward minus
    infinity. *)
Definition prettyTime (diff : Z) : string :=
  if (diff >? PERIODS_day)%Z then number_to_string (diff / PERIODS_day)%Z ++ "d"
  else if (diff >? PERIODS_hour)%Z then number_to_string (diff / PERIODS_hour)%Z ++ "h"
  else if (diff >? PERIODS_minute)%Z then number_to_string (diff / PERIODS_minute)%Z ++ "m"
  else if (diff >? PERIODS_seconds)%Z then number_to_string (diff / PERIODS_seconds)%Z ++ "s"
  else number_to_string diff ++ "ms".

(** The template [`${v} <unit>${v > 1 ? "s" : ""} ago`] of each branch. *)
Definition ago (v : Z) (unit : string) : string :=
  number_to_string v ++ " " ++ unit ++ (if (v >? 1)%Z then "s" else "") ++ " ago".

Definition timeAgo (diff : Z) : string :=
  if (diff >? PERIODS_year)%Z then ago (diff / PERIODS_year)%Z "year"
  else if (diff >? PERIODS_month)%Z then ago (diff / PERIODS_month)%Z "month"
  else if (diff >? PERIODS_week)%Z then ago (diff / PERIODS_week)%Z "week"
  else if (diff >? PERIODS_day)%Z then ago (diff / PERIODS_day)%Z "day"
  else if (diff >? PERIODS_hour)%Z then ago (diff / PERIODS_hour)%Z "hour"
  else if (diff >? PERIODS_minute)%Z then ago (diff / PERIODS_minute)%Z "minute"
  else if (diff >? PERIODS_seconds)%Z then ago (diff / PERIODS_seconds)%Z "second"
  else "just now".

(** ** Package manager selection ([src/src/pkg_manager.ts], lines 132-161
    and 303-339) *)

(** [String.prototype.startsWith] *)
Definition startsWith (s searchString : string) : bool := prefix searchString s.

Definition getPkgManagerFromEnv (value : string) : option PkgManagerName :=
  if startsWith value "pnpm/" then Some pnpm
  else if startsWith value "yarn/" then Some yarn
  else if startsWith value "npm/" then Some npm
  else if startsWith value "bun/" then Some bun
  else None.

(** The [PkgManagerName] string of each name. *)
Definition pkgManagerNameString (n : PkgManagerName) : string :=
  match n with
  | npm => "npm"
  | yarn => "yarn"
  | pnpm => "pnpm"
  | bun => "bun"
  end.

(** [isYarnBerry(cwd)]: [yarnVersion cwd] is the output captured from
    [yarn --version] run in [cwd]; when that [exec] rejects (yarn missing
    or exiting non-zero) the rejection propagates. *)
Definition isYarnBerry (yarnVersion : dir -> res string) (cwd : dir) : res bool :=
  version <- yarnVersion cwd ;;
  if String.eqb version "" then Ok false
  else if startsWith version "1." then Ok false
  else Ok true.

(** An adapter instance: its class and the directory it was built with. *)
Record Adapter := mkAdapter { kind : PackageManager; adapter_cwd : dir }.

(** [getPkgManager(cwd, pkgManagerName)]; [userAgent] is
    [process.env.npm_config_user_agent].  No package manager name is the
    empty string, so [a || b || c || "npm"] takes the first non-null
    candidate. *)
Definition getPkgManager (fs : FileSystem) (userAgent : option string)
  (yarnVersion : dir -> res string) (cwd : dir)
  (pkgManagerName : option PkgManagerName) : res Adapter :=
  let fromEnv := match userAgent with
                 | Some envPkgManager => getPkgManagerFromEnv envPkgManager
                 | None => None
                 end in
  info <- findProjectDir fs cwd ;;
  let '(mkProjectInfo projectDir fromLockfile _ _) := info in
  let result := match pkgManagerName with
                | Some n => n
                | None =>
                    match fromEnv with
                    | Some n => n
                    | None => match fromLockfile with Some n => n | None => npm end
                    end
                end in
  match result with
  | yarn =>
      berry <- isYarnBerry yarnVersion projectDir ;;
      Ok (mkAdapter (if berry then YarnBerry else Yarn) projectDir)
  | pnpm => Ok (mkAdapter Pnpm projectDir)
  | bun => Ok (mkAdapter Bun projectDir)
  | npm => Ok (mkAdapter Npm projectDir)
  end.




(** ** The publish command ([src/src/commands.ts], lines 128-192) *)

Record PublishOptions := mkPublishOptions {
  binFolder : string;
  publishPkgJsonPath : option path;   (** [pkgJsonPath] *)
  publishArgs : list string;
  canary : bool
}.

(** [process.env] *)
Definition Env := string -> option string.

Definition env_set (env : Env) (key value : string) : Env :=
  fun k => if String.eqb k key then Some value else env k.

(** The subprocess [publish] starts: [exec(binPath, args, cwd, env)]. *)
Record DenoRun := mkDenoRun {
  binPath : string;
  denoArgs : list string;
  denoCwd : dir;
  denoEnv : Env
}.

(** [publish(cwd, options)] up to the subprocess it starts;
    [getOrDownloadBinPath(binFolder, canary)], which may download Deno, is
    a parameter. *)
Definition publish (env : Env) (getOrDownloadBinPath : string -> bool -> res string)
  (cwd : dir) (options : PublishOptions) : res DenoRun :=
  binPath <- match env "DENO_BIN_PATH" with
             | Some p => Ok p
             | None => getOrDownloadBinPath (binFolder options) (canary options)
             end ;;
  let args :=
    (["publish"]
     ++ match publishPkgJsonPath options with
        | Some _ => ["--unstable-bare-node-builtins"; "--unstable-sloppy-imports";
                     "--unstable-byonm"; "--no-check"]
        | None => []
        end
     ++ filter (fun arg => negb (String.eqb arg "--verbose")) (publishArgs options))%list in
  let env' := match publishPkgJsonPath options with
              | Some _ => env_set env "DENO_DISABLE_PEDANTIC_NODE_WARNINGS" "true"
              | None => env
              end in
  Ok (mkDenoRun binPath args cwd env').

(** ** The command line ([src/unnamed/part_005], lines 125-250) *)

(** What the top level does with [process.argv.slice(2)] before
    [parseArgs]. *)
Inductive CliAction :=
| PrintHelp (exitCode : Z)            (** [printHelp(); process.exit(code)] *)
| PrintVersion                        (** prints the version, exits with 0 *)
| PublishCommand (publishArgs : list string)
| ShowCommand (pkgName : string)
| MissingPackageName                  (** message and help, exit code 1 *)
| ParsedCommand (args : list string). (** the [parseArgs] branch *)

Definition cli (args : list string) : CliAction :=
  match args with
  | [] => PrintHelp 0
  | cmd :: rest =>
      if existsb (fun arg => String.eqb arg "-h" || String.eqb arg "--help") args
      then PrintHelp 0
      else if existsb (fun arg => String.eqb arg "-v" || String.eqb arg "--version") args
      then PrintVersion
      else if String.eqb cmd "publish" then PublishCommand rest
      else if String.eqb cmd "view" || String.eqb cmd "show" || String.eqb cmd "info" then
        match rest with
        | pkgName :: _ => ShowCommand pkgName
        | [] => MissingPackageName
        end
      else ParsedCommand args
  end.

(** The body [run] executes for [publish]: [findProjectDir(process.cwd())],
    then [publish] with [canary] set when [DENO_BIN_CANARY] is defined. *)
Definition runPublish (fs : FileSystem) (env : Env)
  (getOrDownloadBinPath : string -> bool -> res string) (binFolder : string)
  (cwd : dir) (publishArgs : list string) : res DenoRun :=
  projectInfo <- findProjectDir fs cwd ;;
  publish env getOrDownloadBinPath cwd
    (mkPublishOptions binFolder (pkgJsonPath projectInfo) publishArgs
       (match env "DENO_BIN_CANARY" with Some _ => true | None => false end)).

(** [pkgArgs.map((p) => JsrPackage.from(p))]: the first failing parse
    throws. *)
Fixpoint map_from (l : list string) : res (list JsrPackage) :=
  match l with
  | [] => Ok []
  | p :: t => pkg <- from p ;; pkgs <- map_from t ;; Ok (pkg :: pkgs)
  end.

(** [getPackages] returns the packages or, for an empty list that is not
    allowed, prints [Missing packages argument.] and the help and calls
    [process.exit(1)]. *)
Inductive Packages :=
| GotPackages (pkgs : list JsrPackage)
| MissingPackages.

Definition getPackages (positionals : list string) (allowEmpty : bool) : res Packages :=
  let pkgArgs := tl positionals in
  packages <- map_from pkgArgs ;;
  if negb allowEmpty && Nat.eqb (List.length pkgArgs) 0 then Ok MissingPackages
  else Ok (GotPackages packages).

(** [prettyPrintRow(rows)] of [src/unnamed/part_005], lines 26-36.  The
    colouring [kl.green] is a parameter; [padStart] pads with spaces on the
    left, and the width is the largest label length found by the loop. *)
Fixpoint spaces (n : nat) : string :=
  match n with
  | O => ""
  | S n => String " " (spaces n)
  end.

Definition padStart (s : string) (targetLength : nat) : string :=
  if Nat.leb targetLength (String.length s) then s
  else spaces (targetLength - String.length s) ++ s.

Definition labelWidth (rows : list (string * string)) : nat :=
  fold_left (fun max row => let len := String.length (fst row) in
                            if Nat.ltb max len then len else max) rows 0.

Definition prettyPrintRow (green : string -> string) (rows : list (string * string)) : string :=
  let max := labelWidth rows in
  String.concat LF (map (fun row => "  " ++ green (padStart (fst row) max) ++ "  " ++ snd row) rows).


(** The earlier [detectPackageManager(lockfilePath)] of
    [src/src/pkg_manager.ts], lines 87-101: [path.basename] and
    [path.dirname] of a path are its two components. *)
Definition detectPackageManager (lockfilePath : path) : res Adapter :=
  let filename := snd lockfilePath in
  let cwd := fst lockfilePath in
  if String.eqb filename "package-lock.json" then Ok (mkAdapter Npm cwd)
  else if String.eqb filename "yarn.lock" then Ok (mkAdapter Yarn cwd)
  else if String.eqb filename "pnpm-lock.yml" then Ok (mkAdapter Pnpm cwd)
  else Throw (PlainError "Could not determine package manager").


(** Concrete inputs used by the witnesses below. *)
Module Scenarios.

Definition ws_fs : FileSystem :=
  fs_of [(["sub"; "tmp"], "package.json"); (["tmp"], "package.json")]
    (fun d => if dir_eqb d ["tmp"] then JsonObject (Some ["sub"]) else JsonObject None).

Definition yarn_fs : FileSystem :=
  fs_of [(["p"], "yarn.lock"); (["p"], "package.json")] (fun _ => JsonObject None).

Definition deno_env : Env :=
  fun k => if String.eqb k "DENO_BIN_PATH" then Some "/usr/bin/deno" else None.

Definition app_fs : FileSystem :=
  fs_of [(["app"], "package.json")] (fun _ => JsonObject None).

End Scenarios.

Example from_canonical :
  from "@std/encoding@1.0.0" = Ok (mkJsrPackage "std" "encoding" (Some "1.0.0")).
Proof. reflexivity. Qed.

Example from_proxy :
  from "@jsr/std__encoding" = Ok (mkJsrPackage "std" "encoding" None).
Proof. reflexivity. Qed.

Example from_upper :
  from "@Std/encoding" = Throw (JsrPackageNameError (invalid_name_message "@Std/encoding")).
Proof. reflexivity. Qed.

Example from_digit_scope :
  from "@0abc/foo" = Throw (JsrPackageNameError (invalid_name_message "@0abc/foo")).
Proof. reflexivity. Qed.

Example find_nearest :
  findProjectDir (fs_of [(["sub"; "tmp"], "package.json"); (["tmp"], "package.json")]
                    (fun _ => JsonObject None)) ["sub"; "tmp"]
  = Ok (mkProjectInfo ["sub"; "tmp"] None (Some (["sub"; "tmp"], "package.json")) None).
Proof. reflexivity. Qed.

Example find_ws :
  findProjectDir (fs_of [(["sub"; "tmp"], "package.json"); (["tmp"], "package.json")]
                    (fun d => if dir_eqb d ["tmp"] then JsonObject (Some ["sub"]) else JsonObject None))
    ["sub"; "tmp"]
  = Ok (mkProjectInfo ["sub"; "tmp"] None (Some (["sub"; "tmp"], "package.json")) (Some ["tmp"])).
Proof. reflexivity. Qed.

Example npmrc_crlf :
  setupNpmRc (Contents ("a=1" ++ CR ++ LF ++ "b=2")) = Ok (Some ("a=1" ++ CR ++ LF ++ "b=2" ++ CR ++ LF ++ JSR_NPMRC)).
Proof. reflexivity. Qed.

Example bunfig_twice :
  setupBunfigToml (apply_write (Contents "x = 1") (setupBunfigToml (Contents "x = 1"))) = Ok None.
Proof. reflexivity. Qed.

Example exec_msg : exec_error_message 2 = "Child process exited with: 2".
Proof. reflexivity. Qed.

(** * Proofs *)

(** ** The package identity parser *)

Module Parser.

Definition vsuf (v : option string) : string :=
  match v with
  | Some v => "@" ++ v
  | None => ""
  end.

Definition version_ok (v : option string) : Prop :=
  match v with
  | Some v => v <> "" /\ no_line_terminator v = true
  | None => True
  end.

(** The fields a successful parse produces. *)
Definition wf (p : JsrPackage) : Prop :=
  matches_scope_pattern (scope p) = true /\
  matches_name_pattern (name p) = true /\
  version_ok (version p).

(** A string that cannot continue a run of [a-z0-9-]. *)
Definition stops_word (r : string) : Prop :=
  match r with
  | String c _ => is_word c = false
  | EmptyString => True
  end.

Lemma sapp_nil_r (s : string) : s ++ "" = s.
Proof. induction s as [|c s IH]; simpl; [reflexivity|]. now rewrite IH. Qed.

Lemma sapp_assoc (a b c : string) : (a ++ b) ++ c = a ++ (b ++ c).
Proof. induction a as [|x a IH]; simpl; [reflexivity|]. now rewrite IH. Qed.

Lemma span_word_app (w r : string) :
  all_word w = true -> stops_word r -> span_word (w ++ r) = (w, r).
Proof.
  induction w as [|c w IH]; simpl; intros Hw Hr.
  - destruct r as [|c r]; simpl in *; [reflexivity|]. rewrite Hr. reflexivity.
  - apply andb_prop in Hw as [Hc Hw]. rewrite Hc, (IH Hw Hr). reflexivity.
Qed.

Lemma span_word_inv (s w r : string) :
  span_word s = (w, r) -> s = w ++ r /\ all_word w = true /\ stops_word r.
Proof.
  revert w r; induction s as [|c s IH]; simpl; intros w r H.
  - inversion H; subst. simpl. auto.
  - destruct (is_word c) eqn:Hc.
    + destruct (span_word s) as [w' r'] eqn:Hs. inversion H; subst.
      destruct (IH _ _ eq_refl) as [-> [Hw Hr]]. simpl. rewrite Hc, Hw. auto.
    + inversion H; subst. simpl. auto.
Qed.

Lemma vsuf_stops (v : option string) : stops_word (vsuf v).
Proof. destruct v; simpl; reflexivity. Qed.

Lemma mnv_app (nm : string) (v : option string) :
  matches_name_pattern nm = true -> version_ok v ->
  match_name_version (nm ++ vsuf v) = Some (nm, v).
Proof.
  unfold matches_name_pattern, match_name_version. intros Hn Hv.
  apply andb_prop in Hn as [Hne Hw].
  rewrite (span_word_app _ _ Hw (vsuf_stops v)).
  destruct nm as [|c nm]; [discriminate|].
  destruct v as [v|]; [|reflexivity].
  destruct Hv as [Hv1 Hv2]. destruct v as [|c' v]; [congruence|].
  cbn [vsuf append]. cbv iota beta. rewrite Hv2. reflexivity.
Qed.

Lemma mnv_inv (s nm : string) (v : option string) :
  match_name_version s = Some (nm, v) ->
  s = nm ++ vsuf v /\ matches_name_pattern nm = true /\ version_ok v.
Proof.
  unfold match_name_version, matches_name_pattern.
  destruct (span_word s) as [w r] eqn:Hs.
  destruct (span_word_inv _ _ _ Hs) as [-> [Hw _]].
  destruct w as [|c w]; [discriminate|].
  destruct r as [|a r].
  - intros H; inversion H; subst. simpl in *. rewrite Hw, sapp_nil_r. auto.
  - destruct (ascii_dec a "@") as [->|Ha].
    + destruct r as [|b r]; [discriminate|].
      destruct (no_line_terminator (String b r)) eqn:Hl; [|discriminate].
      intros H; inversion H; subst. simpl in *. rewrite Hw.
      repeat split; auto. discriminate.
    + destruct a as [[] [] [] [] [] [] [] []]; try discriminate; exfalso; apply Ha; reflexivity.
Qed.

Lemma scope_ok_nonempty (w : string) : scope_ok w = true -> w <> "".
Proof. destruct w; simpl; congruence. Qed.

(** Case split of a character against the literal a pattern expects; in
    the other 255 cases the hypothesis [H] computes to [None = Some _]. *)
Ltac char_is c lit H :=
  let Hne := fresh "Hne" in
  destruct (ascii_dec c lit) as [->|Hne];
  [| destruct c as [[] [] [] [] [] [] [] []];
     (exfalso; apply Hne; reflexivity) || (simpl in H; discriminate H) ].

Lemma match_reg_inv (s sc nm : string) (v : option string) :
  match_EXTRACT_REG s = Some (sc, nm, v) ->
  s = "@" ++ sc ++ "/" ++ nm ++ vsuf v /\ wf (mkJsrPackage sc nm v).
Proof.
  intros H. unfold match_EXTRACT_REG in H.
  destruct s as [|a r]; [discriminate|].
  char_is a "@"%char H.
  destruct (span_word r) as [w r1] eqn:Hs.
  destruct (span_word_inv _ _ _ Hs) as [-> [Hw _]].
  destruct (scope_ok w) eqn:Hok; [|discriminate].
  destruct r1 as [|b r2]; [discriminate|].
  char_is b "/"%char H.
  destruct (match_name_version r2) as [[nm' v']|] eqn:Hm; [|discriminate].
  inversion H; subst.
  destruct (mnv_inv _ _ _ Hm) as [-> [Hn Hv]].
  split; [reflexivity|]. unfold wf, matches_scope_pattern; simpl. rewrite Hok, Hw. auto.
Qed.

Lemma match_proxy_inv (s sc nm : string) (v : option string) :
  match_EXTRACT_REG_PROXY s = Some (sc, nm, v) ->
  s = "@jsr/" ++ sc ++ "__" ++ nm ++ vsuf v /\ wf (mkJsrPackage sc nm v).
Proof.
  intros H. unfold match_EXTRACT_REG_PROXY in H.
  destruct s as [|a0 r]; [discriminate|]. char_is a0 "@"%char H.
  destruct r as [|a1 r]; [discriminate|]. char_is a1 "j"%char H.
  destruct r as [|a2 r]; [discriminate|]. char_is a2 "s"%char H.
  destruct r as [|a3 r]; [discriminate|]. char_is a3 "r"%char H.
  destruct r as [|a4 r]; [discriminate|]. char_is a4 "/"%char H.
  destruct (span_word r) as [w r1] eqn:Hs.
  destruct (span_word_inv _ _ _ Hs) as [-> [Hw _]].
  destruct (scope_ok w) eqn:Hok; [|discriminate].
  destruct r1 as [|b r2]; [discriminate|]. char_is b "_"%char H.
  destruct r2 as [|b' r2]; [discriminate|]. char_is b' "_"%char H.
  destruct (match_name_version r2) as [[nm' v']|] eqn:Hm; [|discriminate].
  inversion H; subst.
  destruct (mnv_inv _ _ _ Hm) as [-> [Hn Hv]].
  split; [reflexivity|]. unfold wf, matches_scope_pattern; simpl. rewrite Hok, Hw. auto.
Qed.

Lemma toString_eq (p : JsrPackage) :
  toString p = "@" ++ scope p ++ "/" ++ name p ++ vsuf (version p).
Proof. reflexivity. Qed.

Lemma toNpmPackage_eq (p : JsrPackage) :
  toNpmPackage p = "@jsr/" ++ scope p ++ "__" ++ name p ++ vsuf (version p).
Proof. reflexivity. Qed.

Lemma match_reg_canonical (sc nm : string) (v : option string) :
  wf (mkJsrPackage sc nm v) ->
  match_EXTRACT_REG ("@" ++ sc ++ "/" ++ nm ++ vsuf v) = Some (sc, nm, v).
Proof.
  unfold wf, matches_scope_pattern; simpl. intros [Hs [Hn Hv]].
  apply andb_prop in Hs as [Hok Hw].
  unfold match_EXTRACT_REG. cbn [append].
  rewrite (span_word_app sc (String "/" (nm ++ vsuf v)) Hw eq_refl), Hok.
  cbn [append]. rewrite (mnv_app _ _ Hn Hv). reflexivity.
Qed.

Lemma match_reg_proxy_form (sc nm : string) (v : option string) :
  wf (mkJsrPackage sc nm v) ->
  match_EXTRACT_REG ("@jsr/" ++ sc ++ "__" ++ nm ++ vsuf v) = None.
Proof.
  unfold wf, matches_scope_pattern; simpl. intros [Hs [Hn Hv]].
  apply andb_prop in Hs as [Hok Hw].
  unfold match_EXTRACT_REG, match_name_version. cbn [append span_word].
  cbv [is_word is_lower is_digit code]. simpl.
  rewrite (span_word_app sc (String "_" (String "_" (nm ++ vsuf v))) Hw eq_refl).
  destruct sc as [|c sc]; [discriminate|]. reflexivity.
Qed.

Lemma match_proxy_proxy_form (sc nm : string) (v : option string) :
  wf (mkJsrPackage sc nm v) ->
  match_EXTRACT_REG_PROXY ("@jsr/" ++ sc ++ "__" ++ nm ++ vsuf v) = Some (sc, nm, v).
Proof.
  unfold wf, matches_scope_pattern; simpl. intros [Hs [Hn Hv]].
  apply andb_prop in Hs as [Hok Hw].
  unfold match_EXTRACT_REG_PROXY. cbn [append].
  rewrite (span_word_app sc (String "_" (String "_" (nm ++ vsuf v))) Hw eq_refl), Hok.
  cbn [append]. rewrite (mnv_app _ _ Hn Hv). reflexivity.
Qed.

Lemma from_ok_inv (s : string) (p : JsrPackage) :
  from s = Ok p -> wf p /\ (s = toString p \/ s = toNpmPackage p).
Proof.
  unfold from.
  destruct (match_EXTRACT_REG s) as [[[sc nm] v]|] eqn:H1.
  - intros E; inversion E; subst. destruct (match_reg_inv _ _ _ _ H1) as [-> Hwf]. auto.
  - destruct (match_EXTRACT_REG_PROXY s) as [[[sc nm] v]|] eqn:H2; [|discriminate].
    intros E; inversion E; subst. destruct (match_proxy_inv _ _ _ _ H2) as [-> Hwf]. auto.
Qed.

Lemma from_toString (p : JsrPackage) : wf p -> from (toString p) = Ok p.
Proof.
  destruct p as [sc nm v]. intros Hwf. unfold from. rewrite toString_eq. cbn [scope name version].
  rewrite (match_reg_canonical _ _ _ Hwf). reflexivity.
Qed.

Lemma from_toNpmPackage (p : JsrPackage) : wf p -> from (toNpmPackage p) = Ok p.
Proof.
  destruct p as [sc nm v]. intros Hwf. unfold from. rewrite toNpmPackage_eq. cbn [scope name version].
  rewrite (match_reg_proxy_form _ _ _ Hwf), (match_proxy_proxy_form _ _ _ Hwf).
  reflexivity.
Qed.

Lemma from_error_is_naming (s : string) (e : JsError) :
  from s = Throw e -> e = JsrPackageNameError (invalid_name_message s).
Proof.
  unfold from.
  destruct (match_EXTRACT_REG s) as [[[sc nm] v]|]; [discriminate|].
  destruct (match_EXTRACT_REG_PROXY s) as [[[sc nm] v]|]; [discriminate|].
  intros E; inversion E; reflexivity.
Qed.

End Parser.

(** ** The project locator as a walk over the ancestors *)

Module Locator.

(** The start directory and its ancestors, nearest first, up to the root. *)
Fixpoint ancestors (d : dir) : list dir :=
  d :: match d with
       | [] => []
       | _ :: parent => ancestors parent
       end.

(** The lockfile priority of the spec: the first of these files present
    in a directory decides the package manager. *)
Definition lockfile_priority : list (string * PkgManagerName) :=
  [("package-lock.json", npm); ("bun.lockb", bun); ("yarn.lock", yarn);
   ("pnpm-lock.yaml", pnpm)].

Definition lock_at (fs : FileSystem) (d : dir) : option PkgManagerName :=
  option_map snd (find (fun e => fileExists fs (join d (fst e))) lockfile_priority).

(** The directories the walk visits: up to and including the first one
    holding a lockfile. *)
Fixpoint upto_lock (fs : FileSystem) (l : list dir) : list dir :=
  match l with
  | [] => []
  | d :: t => d :: match lock_at fs d with
                   | Some _ => []
                   | None => upto_lock fs t
                   end
  end.

Fixpoint first_lock (fs : FileSystem) (l : list dir) : option PkgManagerName :=
  match l with
  | [] => None
  | d :: t => match lock_at fs d with
              | Some k => Some k
              | None => first_lock fs t
              end
  end.

Definition has_pkg (fs : FileSystem) (d : dir) : bool :=
  fileExists fs (join d "package.json").

(** The directories after the first one holding a [package.json]. *)
Fixpoint after_manifest (fs : FileSystem) (l : list dir) : list dir :=
  match l with
  | [] => []
  | d :: t => if has_pkg fs d then t else after_manifest fs t
  end.

(** A directory whose [package.json] has an array [workspaces] field, or
    which holds [pnpm-workspace.yaml] next to its [package.json]. *)
Definition ws_marker (fs : FileSystem) (d : dir) : bool :=
  has_pkg fs d &&
  match readPkgJson fs d with
  | JsonObject (Some _) => true
  | JsonObject None => fileExists fs (join d "pnpm-workspace.yaml")
  | JsonThrows => false
  end.

Definition last_marker (fs : FileSystem) (l : list dir) (acc : option dir)
  : option dir :=
  fold_left (fun acc d => if ws_marker fs d then Some d else acc) l acc.

Fixpoint walk (fs : FileSystem) (l : list dir) (r : ProjectInfo)
  : res ProjectInfo :=
  match l with
  | [] => Ok r
  | d :: t =>
      r' <- visit_pkg_json fs d r ;;
      match lock_at fs d with
      | Some k => Ok (set_pkgManagerName r' k)
      | None => walk fs t r'
      end
  end.

Lemma lock_checks (fs : FileSystem) (d : dir) (r : ProjectInfo)
  (rest : res ProjectInfo) :
  (if fileExists fs (join d "package-lock.json") then Ok (set_pkgManagerName r npm)
   else if fileExists fs (join d "bun.lockb") then Ok (set_pkgManagerName r bun)
   else if fileExists fs (join d "yarn.lock") then Ok (set_pkgManagerName r yarn)
   else if fileExists fs (join d "pnpm-lock.yaml") then Ok (set_pkgManagerName r pnpm)
   else rest)
  = match lock_at fs d with
    | Some k => Ok (set_pkgManagerName r k)
    | None => rest
    end.
Proof.
  unfold lock_at; simpl.
  destruct (fileExists fs (join d "package-lock.json")); [reflexivity|].
  destruct (fileExists fs (join d "bun.lockb")); [reflexivity|].
  destruct (fileExists fs (join d "yarn.lock")); [reflexivity|].
  destruct (fileExists fs (join d "pnpm-lock.yaml")); reflexivity.
Qed.

Lemma find_walk (fs : FileSystem) (d : dir) (r : ProjectInfo) :
  findProjectDir_at fs d r = walk fs (ancestors d) r.
Proof.
  revert r; induction d as [|x p IH]; intros r; simpl;
    destruct (visit_pkg_json fs _ r) as [r'|e]; simpl; try reflexivity;
    rewrite lock_checks.
  - reflexivity.
  - rewrite IH. reflexivity.
Qed.

Lemma walk_cons (fs : FileSystem) (d : dir) (t : list dir) (r r' : ProjectInfo) :
  walk fs (d :: t) r = Ok r' ->
  exists r1, visit_pkg_json fs d r = Ok r1 /\
    match lock_at fs d with
    | Some k => r' = set_pkgManagerName r1 k
    | None => walk fs t r1 = Ok r'
    end.
Proof.
  simpl. destruct (visit_pkg_json fs d r) as [r1|e]; simpl; [|discriminate].
  intros H. exists r1. split; [reflexivity|].
  destruct (lock_at fs d); [congruence|exact H].
Qed.

(** Once a [package.json] is recorded, the visit leaves [projectDir] and
    [pkgJsonPath] alone and may only set [root]. *)
Lemma visit_recorded (fs : FileSystem) (d : dir) (r r1 : ProjectInfo) (q : path) :
  pkgJsonPath r = Some q -> visit_pkg_json fs d r = Ok r1 ->
  projectDir r1 = projectDir r /\ pkgJsonPath r1 = Some q /\
  pkgManagerName r1 = pkgManagerName r /\
  root r1 = (if ws_marker fs d then Some d else root r).
Proof.
  unfold visit_pkg_json, ws_marker, has_pkg. intros Hq. rewrite Hq.
  destruct (fileExists fs (join d "package.json")); simpl.
  - destruct (readPkgJson fs d) as [|[ws|]]; [discriminate| |].
    + intros E; inversion E; subst; simpl; auto.
    + destruct (fileExists fs (join d "pnpm-workspace.yaml"));
        intros E; inversion E; subst; simpl; auto.
  - intros E; inversion E; subst; auto.
Qed.

Lemma visit_unrecorded (fs : FileSystem) (d : dir) (r r1 : ProjectInfo) :
  pkgJsonPath r = None -> visit_pkg_json fs d r = Ok r1 ->
  root r1 = root r /\ pkgManagerName r1 = pkgManagerName r /\
  (if has_pkg fs d
   then projectDir r1 = d /\ pkgJsonPath r1 = Some (join d "package.json")
   else r1 = r).
Proof.
  unfold visit_pkg_json, has_pkg. intros Hq. rewrite Hq.
  destruct (fileExists fs (join d "package.json")); intros E; inversion E; subst; simpl; auto.
Qed.

Lemma visit_manager (fs : FileSystem) (d : dir) (r r1 : ProjectInfo) :
  visit_pkg_json fs d r = Ok r1 -> pkgManagerName r1 = pkgManagerName r.
Proof.
  destruct (pkgJsonPath r) as [q|] eqn:Hq; intros H.
  - apply (visit_recorded _ _ _ _ _ Hq H).
  - apply (visit_unrecorded _ _ _ _ Hq H).
Qed.

Lemma walk_recorded (fs : FileSystem) (l : list dir) (r r' : ProjectInfo) (q : path) :
  pkgJsonPath r = Some q -> walk fs l r = Ok r' ->
  projectDir r' = projectDir r /\ pkgJsonPath r' = Some q /\
  root r' = last_marker fs (upto_lock fs l) (root r).
Proof.
  revert r; induction l as [|d t IH]; intros r Hq H.
  - simpl in H; inversion H; subst. auto.
  - destruct (walk_cons _ _ _ _ _ H) as [r1 [Hv Hl]].
    destruct (visit_recorded _ _ _ _ _ Hq Hv) as [Hp [Hj [_ Hr]]].
    simpl. destruct (lock_at fs d) as [k|].
    + subst r'. simpl. unfold last_marker; simpl. auto.
    + destruct (IH r1 Hj Hl) as [Hp' [Hj' Hr']].
      rewrite Hp', Hp, Hj', Hr', Hr. auto.
Qed.

Lemma walk_unrecorded (fs : FileSystem) (l : list dir) (r r' : ProjectInfo) :
  pkgJsonPath r = None -> walk fs l r = Ok r' ->
  projectDir r' = match find (has_pkg fs) (upto_lock fs l) with
                  | Some d => d
                  | None => projectDir r
                  end /\
  pkgJsonPath r' = option_map (fun d => join d "package.json")
                     (find (has_pkg fs) (upto_lock fs l)) /\
  root r' = last_marker fs (after_manifest fs (upto_lock fs l)) (root r).
Proof.
  revert r; induction l as [|d t IH]; intros r Hq H.
  - simpl in H; inversion H; subst. auto.
  - destruct (walk_cons _ _ _ _ _ H) as [r1 [Hv Hl]].
    destruct (visit_unrecorded _ _ _ _ Hq Hv) as [Hr [_ Hp]].
    simpl. destruct (has_pkg fs d) eqn:Hd.
    + destruct Hp as [Hp Hj].
      destruct (lock_at fs d) as [k|].
      * subst r'. simpl. auto.
      * destruct (walk_recorded _ _ _ _ _ Hj Hl) as [Hp' [Hj' Hr']].
        rewrite Hp', Hp, Hj', Hr', Hr. auto.
    + subst r1. destruct (lock_at fs d) as [k|].
      * subst r'. simpl. rewrite Hq. auto.
      * exact (IH r Hq Hl).
Qed.

Lemma walk_manager (fs : FileSystem) (l : list dir) (r r' : ProjectInfo) :
  walk fs l r = Ok r' ->
  pkgManagerName r' = match first_lock fs l with
                      | Some k => Some k
                      | None => pkgManagerName r
                      end.
Proof.
  revert r; induction l as [|d t IH]; intros r H.
  - simpl in H; inversion H; subst. reflexivity.
  - destruct (walk_cons _ _ _ _ _ H) as [r1 [Hv Hl]].
    pose proof (visit_manager _ _ _ _ Hv) as Hm.
    simpl. destruct (lock_at fs d) as [k|].
    + subst r'. reflexivity.
    + rewrite (IH r1 Hl), Hm. reflexivity.
Qed.

(** Two filesystems that agree on the files of a directory. *)
Definition agree_at (fs fs' : FileSystem) (d : dir) : Prop :=
  (forall f, fileExists fs' (join d f) = fileExists fs (join d f)) /\
  readPkgJson fs' d = readPkgJson fs d.

Lemma visit_agree (fs fs' : FileSystem) (d : dir) (r : ProjectInfo) :
  agree_at fs fs' d -> visit_pkg_json fs' d r = visit_pkg_json fs d r.
Proof.
  intros [Hf Hj]. unfold visit_pkg_json. rewrite !Hf, Hj. reflexivity.
Qed.

Lemma lock_agree (fs fs' : FileSystem) (d : dir) :
  agree_at fs fs' d -> lock_at fs' d = lock_at fs d.
Proof. intros [Hf _]. unfold lock_at; simpl. rewrite !Hf. reflexivity. Qed.

Lemma walk_agree (fs fs' : FileSystem) (l : list dir) (r : ProjectInfo) :
  (forall d, In d (upto_lock fs l) -> agree_at fs fs' d) ->
  walk fs' l r = walk fs l r.
Proof.
  revert r; induction l as [|d t IH]; intros r Hag; [reflexivity|].
  assert (Hd : agree_at fs fs' d) by (apply Hag; left; reflexivity).
  simpl. rewrite (visit_agree _ _ _ _ Hd), (lock_agree _ _ _ Hd).
  destruct (visit_pkg_json fs d r) as [r1|e]; simpl; [|reflexivity].
  destruct (lock_at fs d) as [k|] eqn:Hk; [reflexivity|].
  apply IH. intros d' Hin. apply Hag. simpl. rewrite Hk. right; exact Hin.
Qed.

End Locator.

(** ** The registry configuration writers *)

Module Writers.

Lemma includes_app_r (a b sub : string) :
  includes b sub = true -> includes (a ++ b) sub = true.
Proof.
  induction a as [|c a IH]; simpl; intros H; [exact H|].
  rewrite (IH H). apply orb_true_r.
Qed.

Lemma npmrc_has_marker : includes JSR_NPMRC "@jsr:registry=" = true.
Proof. vm_compute. reflexivity. Qed.

Lemma bkt_cons (b : bool) (c : ascii) (r : string) :
  bunfig_key_test b (String c r)
  = (b && jsr_key_at (String c r)) || bunfig_key_test (is_line_terminator c) r.
Proof. reflexivity. Qed.

Lemma bkt_start (t : string) : jsr_key_at t = true -> bunfig_key_test true t = true.
Proof.
  destruct t as [|c r]; intros Ht; [discriminate|].
  rewrite bkt_cons, Ht. reflexivity.
Qed.

(** A line terminator followed by a line starting with the [@jsr] key
    makes the test succeed, whatever precedes it. *)
Lemma bunfig_key_test_after_newline (a t : string) (b : bool) (c : ascii) :
  is_line_terminator c = true -> jsr_key_at t = true ->
  bunfig_key_test b (a ++ String c t) = true.
Proof.
  intros Hc Ht. revert b; induction a as [|x a IH]; intros b; cbn [append];
    rewrite bkt_cons.
  - rewrite Hc, (bkt_start _ Ht). apply orb_true_r.
  - rewrite IH. apply orb_true_r.
Qed.

Definition bunfig_tail : string :=
  DQ ++ "@jsr" ++ DQ ++ " = " ++ DQ ++ JSR_NPM_REGISTRY_URL ++ DQ ++ LF.

Lemma bunfig_split : JSR_BUNFIG = "[install.scopes]" ++ String (ascii_of_nat 10) bunfig_tail.
Proof. reflexivity. Qed.

Lemma bunfig_tail_key : jsr_key_at bunfig_tail = true.
Proof. vm_compute. reflexivity. Qed.

Lemma bunfig_appended_has_key (content : string) :
  bunfig_key_test true (content ++ JSR_BUNFIG) = true.
Proof.
  rewrite bunfig_split, <- Parser.sapp_assoc.
  apply bunfig_key_test_after_newline; [reflexivity|apply bunfig_tail_key].
Qed.

Lemma bunfig_has_key : bunfig_key_test true JSR_BUNFIG = true.
Proof. exact (bunfig_appended_has_key ""). Qed.

Lemma npmrc_second_call (st : FileState) :
  apply_write st (setupNpmRc st) <> Unreadable ->
  setupNpmRc (apply_write st (setupNpmRc st)) = Ok None.
Proof.
  destruct st as [|c|]; cbn -[includes JSR_NPMRC getNewLineChars endsWith]; intros Hne.
  - rewrite npmrc_has_marker. reflexivity.
  - destruct (includes c "@jsr:registry=") eqn:Hi; cbn -[includes JSR_NPMRC getNewLineChars endsWith].
    + rewrite Hi. reflexivity.
    + rewrite (includes_app_r c _ _ (includes_app_r _ _ _ npmrc_has_marker)). reflexivity.
  - congruence.
Qed.

Lemma bunfig_second_call (st : FileState) :
  apply_write st (setupBunfigToml st) <> Unreadable ->
  setupBunfigToml (apply_write st (setupBunfigToml st)) = Ok None.
Proof.
  destruct st as [|c|]; cbn -[bunfig_key_test JSR_BUNFIG]; intros Hne.
  - rewrite bunfig_has_key. reflexivity.
  - destruct (bunfig_key_test true c) eqn:Hi; cbn -[bunfig_key_test JSR_BUNFIG].
    + rewrite Hi. reflexivity.
    + rewrite bunfig_appended_has_key. reflexivity.
  - congruence.
Qed.

Lemma getNewLineChars_cases (s : string) :
  getNewLineChars s = LF \/ getNewLineChars s = CR ++ LF.
Proof.
  unfold getNewLineChars.
  destruct (index 0 LF s) as [[|k]|]; auto.
  destruct (get k s) as [c|]; auto.
  destruct (Nat.eqb (code c) 13); auto.
Qed.

(** The shape of every write [setupNpmRc] makes to an existing file. *)
Lemma npmrc_append_shape (content out : string) :
  setupNpmRc (Contents content) = Ok (Some out) ->
  includes content "@jsr:registry=" = false /\
  out = content
        ++ (if endsWith content (getNewLineChars content) then "" else getNewLineChars content)
        ++ JSR_NPMRC.
Proof.
  cbn -[includes JSR_NPMRC getNewLineChars endsWith].
  destruct (includes content "@jsr:registry=") eqn:Hi; cbn -[includes JSR_NPMRC getNewLineChars endsWith]; [discriminate|].
  intros E; inversion E; subst. split; [reflexivity|].
  destruct (endsWith content (getNewLineChars content)); reflexivity.
Qed.

End Writers.

(** ** Stable sorting and the least element *)

Module Sorting.

Section Cmp.

Variable cmp : string -> string -> Z.
(** The elements the comparator is applied to. *)
Variable S : string -> Prop.
Hypothesis cmp_total : forall a b, S a -> S b -> (cmp a b <= 0 \/ cmp b a <= 0)%Z.
Hypothesis cmp_trans : forall a b c, S a -> S b -> S c ->
  (cmp a b <= 0 -> cmp b c <= 0 -> cmp a c <= 0)%Z.

Definition min_head (l : list string) : Prop :=
  match l with
  | [] => True
  | h :: _ => forall w, In w l -> (cmp h w <= 0)%Z
  end.

Lemma insert_in (x w : string) (l : list string) :
  In w (insert_sorted cmp x l) <-> w = x \/ In w l.
Proof.
  induction l as [|y t IH]; simpl; [intuition congruence|].
  destruct (Z.gtb (cmp y x) 0); simpl; [intuition congruence|].
  rewrite IH. intuition congruence.
Qed.

Lemma insert_min (x : string) (l : list string) :
  S x -> (forall w, In w l -> S w) -> min_head l -> min_head (insert_sorted cmp x l).
Proof.
  intros Sx Sl Hm. destruct l as [|h t]; simpl.
  - intros w [<-|[]]. destruct (cmp_total x x Sx Sx); lia.
  - assert (Sh : S h) by (apply Sl; left; reflexivity).
    destruct (Z.gtb (cmp h x) 0) eqn:Hgt; simpl.
    + apply Z.gtb_lt in Hgt.
      assert (Hxh : (cmp x h <= 0)%Z) by (destruct (cmp_total h x Sh Sx); lia).
      intros w [<-|Hw].
      * destruct (cmp_total x x Sx Sx); lia.
      * apply (cmp_trans x h w Sx Sh (Sl w Hw) Hxh (Hm w Hw)).
    + rewrite Z.gtb_ltb, Z.ltb_ge in Hgt.
      intros w [<-|Hw].
      * apply Hm. left; reflexivity.
      * apply insert_in in Hw as [->|Hw]; [lia|]. apply Hm. right; exact Hw.
Qed.

Lemma fold_insert (l acc : list string) :
  (forall w, In w l -> S w) -> (forall w, In w acc -> S w) -> min_head acc ->
  min_head (fold_left (fun acc x => insert_sorted cmp x acc) l acc) /\
  (forall w, In w (fold_left (fun acc x => insert_sorted cmp x acc) l acc) <->
             In w acc \/ In w l).
Proof.
  revert acc; induction l as [|x l IH]; intros acc Sl Sacc Hm; simpl.
  - split; [exact Hm|]. intros w; simpl; tauto.
  - destruct (IH (insert_sorted cmp x acc)) as [Hm' Hin].
    + intros w Hw; apply Sl; right; exact Hw.
    + intros w Hw. apply insert_in in Hw as [->|Hw]; [apply Sl; left; reflexivity|auto].
    + apply insert_min; auto. apply Sl; left; reflexivity.
    + split; [exact Hm'|]. intros w. rewrite Hin, insert_in. simpl. intuition congruence.
Qed.

Lemma sort_least (l : list string) :
  (forall w, In w l -> S w) -> l <> [] ->
  exists v t, sort cmp l = v :: t /\ In v l /\ forall w, In w l -> (cmp v w <= 0)%Z.
Proof.
  intros Sl Hne. unfold sort.
  destruct (fold_insert l [] Sl (fun _ H => match H with end) I) as [Hm Hin].
  destruct (fold_left _ l []) as [|v t] eqn:E; try rewrite E in Hm; try rewrite E in Hin.
  - exfalso. destruct l as [|x l]; [congruence|].
    exact (proj2 (Hin x) (or_intror (or_introl eq_refl))).
  - exists v, t. split; [reflexivity|]. split.
    + destruct (proj1 (Hin v) (or_introl eq_refl)) as [[]|H]; exact H.
    + intros w Hw. apply Hm. apply Hin. right; exact Hw.
Qed.

End Cmp.

End Sorting.

(** ** The runner *)

Module Runner.

Lemma run_steps_app (pre rest : list Step) :
  run_steps pre = Ok tt -> run_steps (pre ++ rest) = run_steps rest.
Proof.
  induction pre as [|s pre IH]; simpl; [reflexivity|].
  destruct (run_step s) as [[]|e]; simpl; [exact IH|discriminate].
Qed.

End Runner.

(** ** Lemmas for the further properties *)

Import Parser Locator.

Module NewLines.

Lemma prefix_LF_head (d : ascii) (y z : string) :
  prefix LF (String d y) = prefix LF (String d z).
Proof. unfold LF, chr. cbn [prefix]. destruct (ascii_dec (ascii_of_nat 10) d); [destruct y, z|]; reflexivity. Qed.

Lemma index_LF_app (x rest : string) :
  index 0 LF x = None -> index 0 LF (x ++ LF ++ rest) = Some (String.length x).
Proof.
  induction x as [|d x IH]; intros H.
  - destruct rest; reflexivity.
  - cbn [append index String.length] in *.
    rewrite (prefix_LF_head d _ x).
    destruct (prefix LF (String d x)); [discriminate|].
    destruct (index 0 LF x); [discriminate|].
    rewrite (IH eq_refl). reflexivity.
Qed.

Lemma length_snoc (a : string) (c : ascii) :
  String.length (a ++ String c EmptyString) = S (String.length a).
Proof. induction a as [|x a IH]; simpl; [reflexivity|]. now rewrite IH. Qed.

Lemma get_snoc (a r : string) (c : ascii) :
  get (String.length a) (a ++ String c r) = Some c.
Proof. induction a as [|x a IH]; simpl; [reflexivity|]. exact IH. Qed.

End NewLines.

Ltac gtb_cases :=
  repeat match goal with
  | |- context [Z.gtb ?a ?b] => rewrite (Z.gtb_ltb a b); destruct (Z.ltb_spec b a)
  end.


Module ProjectWalk.

Lemma ancestors_suffix (p d : dir) : In d (ancestors p) -> exists pre, p = (pre ++ d)%list.
Proof.
  induction p as [|x p IH]; simpl; intros [H|H].
  - subst. exists []. reflexivity.
  - contradiction.
  - subst. exists []. reflexivity.
  - destruct (IH H) as [pre E]. exists (x :: pre). simpl. congruence.
Qed.

Lemma upto_lock_incl (fs : FileSystem) (l : list dir) (d : dir) :
  In d (upto_lock fs l) -> In d l.
Proof.
  induction l as [|x t IH]; simpl; [auto|].
  intros [H|H]; [auto|]. destruct (lock_at fs x); [contradiction|auto].
Qed.

Lemma after_manifest_strict (fs : FileSystem) (cwd d : dir) :
  In d (after_manifest fs (upto_lock fs (ancestors cwd))) ->
  exists d0 pre, find (has_pkg fs) (upto_lock fs (ancestors cwd)) = Some d0 /\
                 pre <> [] /\ d0 = (pre ++ d)%list.
Proof.
  induction cwd as [|x p IH]; intros H.
  - cbn [ancestors upto_lock after_manifest] in H.
    destruct (lock_at fs []), (has_pkg fs []); simpl in H; contradiction.
  - cbn [ancestors upto_lock after_manifest find] in *.
    destruct (has_pkg fs (x :: p)) eqn:Hh.
    + exists (x :: p).
      assert (Hin : In d (ancestors p)).
      { destruct (lock_at fs (x :: p)); [contradiction|].
        exact (upto_lock_incl _ _ _ H). }
      destruct (ancestors_suffix _ _ Hin) as [pre E].
      exists (x :: pre). split; [reflexivity|]. split; [discriminate|]. simpl. congruence.
    + destruct (lock_at fs (x :: p)); [simpl in H; contradiction|].
      exact (IH H).
Qed.

Lemma last_marker_in (fs : FileSystem) (l : list dir) (acc : option dir) (d : dir) :
  last_marker fs l acc = Some d -> acc = Some d \/ (In d l /\ ws_marker fs d = true).
Proof.
  unfold last_marker. revert acc; induction l as [|x t IH]; simpl; intros acc H; [auto|].
  destruct (IH _ H) as [E|E]; [|tauto].
  destruct (ws_marker fs x) eqn:Hw.
  - right. injection E as <-. auto.
  - left. exact E.
Qed.

Lemma visit_recorded_cases (fs : FileSystem) (d : dir) (r : ProjectInfo) (q : path) :
  pkgJsonPath r = Some q ->
  (has_pkg fs d = true /\ readPkgJson fs d = JsonThrows /\
   exists e, visit_pkg_json fs d r = Throw e) \/
  (~ (has_pkg fs d = true /\ readPkgJson fs d = JsonThrows) /\
   exists r1, visit_pkg_json fs d r = Ok r1 /\ pkgJsonPath r1 = Some q).
Proof.
  intros Hq. unfold visit_pkg_json, has_pkg. rewrite Hq.
  destruct (fileExists fs (join d "package.json")).
  - destruct (readPkgJson fs d) as [|[ws|]].
    + left. eauto.
    + right. split; [intros [_ E]; discriminate|]. eexists; split; [reflexivity|exact Hq].
    + right. split; [intros [_ E]; discriminate|].
      destruct (fileExists fs (join d "pnpm-workspace.yaml"));
        eexists; split; try reflexivity; exact Hq.
  - right. split; [intros [E _]; discriminate|]. eexists; split; [reflexivity|exact Hq].
Qed.

Lemma walk_error_recorded (fs : FileSystem) (l : list dir) (r : ProjectInfo) (q : path) :
  pkgJsonPath r = Some q ->
  ((exists e, walk fs l r = Throw e) <->
   exists d, In d (upto_lock fs l) /\ has_pkg fs d = true /\ readPkgJson fs d = JsonThrows).
Proof.
  revert r; induction l as [|x t IH]; intros r Hq.
  - simpl. split; [intros [e E]; discriminate | intros [d [[] _]]].
  - destruct (visit_recorded_cases fs x r q Hq) as [[Hh [Hj [e He]]]|[Hn [r1 [Hv Hq1]]]].
    + simpl. rewrite He. simpl. split; [intros _; exists x; auto | intros _; eauto].
    + simpl. rewrite Hv. simpl. destruct (lock_at fs x) as [k|].
      * split; [intros [e E]; discriminate|].
        intros [d [[<-|[]] Hd]]. contradiction.
      * rewrite (IH r1 Hq1). split.
        -- intros [d [Hin Hd]]. exists d. auto.
        -- intros [d [[<-|Hin] Hd]]; [contradiction|]. exists d. auto.
Qed.

Lemma walk_error_unrecorded (fs : FileSystem) (l : list dir) (r : ProjectInfo) :
  pkgJsonPath r = None ->
  ((exists e, walk fs l r = Throw e) <->
   exists d, In d (after_manifest fs (upto_lock fs l)) /\
             has_pkg fs d = true /\ readPkgJson fs d = JsonThrows).
Proof.
  revert r; induction l as [|x t IH]; intros r Hq.
  - simpl. split; [intros [e E]; discriminate | intros [d [[] _]]].
  - simpl. unfold visit_pkg_json at 1. rewrite Hq.
    change (fileExists fs (join x "package.json")) with (has_pkg fs x).
    destruct (has_pkg fs x) eqn:Hh; simpl.
    + destruct (lock_at fs x) as [k|].
      * split; [intros [e E]; discriminate | intros [d [[] _]]].
      * apply (walk_error_recorded fs t (set_project r x (join x "package.json"))
                 (join x "package.json") eq_refl).
    + destruct (lock_at fs x) as [k|].
      * split; [intros [e E]; discriminate | intros [d [[] _]]].
      * exact (IH r Hq).
Qed.

End ProjectWalk.

Module InstallArgs.

Lemma resolve_versions_ok (latest : JsrPackage -> res string) (pkgs pkgs' : list JsrPackage) :
  resolve_versions latest pkgs = Ok pkgs' ->
  Forall2 (fun p p' => scope p' = scope p /\ name p' = name p /\
             match version p with
             | Some v => version p' = Some v
             | None => exists w, latest p = Ok w /\ version p' = Some ("^" ++ w)
             end) pkgs pkgs'.
Proof.
  revert pkgs'; induction pkgs as [|p t IH]; simpl; intros pkgs' H.
  - inversion H. constructor.
  - destruct (version p) as [v|] eqn:Hv.
    + simpl in H. destruct (resolve_versions latest t) as [t'|e] eqn:Ht; simpl in H; [|discriminate].
      inversion H; subst. constructor; [rewrite Hv; repeat split | apply IH; reflexivity].
    + destruct (latest p) as [w|e] eqn:Hl; simpl in H; [|discriminate].
      destruct (resolve_versions latest t) as [t'|e] eqn:Ht; simpl in H; [|discriminate].
      inversion H; subst. constructor; [rewrite Hv; cbn [scope name version]; repeat split; exists w; split; [exact Hl|reflexivity] | apply IH; reflexivity].
Qed.

Lemma resolve_versions_frame (latest1 latest2 : JsrPackage -> res string) (pkgs : list JsrPackage) :
  (forall p, In p pkgs -> version p = None -> latest1 p = latest2 p) ->
  resolve_versions latest1 pkgs = resolve_versions latest2 pkgs.
Proof.
  induction pkgs as [|p t IH]; simpl; intros Hag; [reflexivity|].
  rewrite IH by (intros q Hq; apply Hag; auto).
  destruct (version p) eqn:Hv; [reflexivity|].
  rewrite (Hag p (or_introl eq_refl) Hv). reflexivity.
Qed.

Lemma resolve_versions_fail (latest : JsrPackage -> res string) (pkgs : list JsrPackage)
  (p : JsrPackage) (e : JsError) :
  In p pkgs -> version p = None -> latest p = Throw e ->
  exists e', resolve_versions latest pkgs = Throw e'.
Proof.
  induction pkgs as [|q t IH]; simpl; intros Hin Hv Hl; [contradiction|].
  destruct Hin as [<-|Hin].
  - rewrite Hv, Hl. simpl. eauto.
  - destruct (IH Hin Hv Hl) as [e' He].
    destruct (match version q with Some _ => Ok q | None => _ end) as [q'|e2]; simpl; [|eauto].
    rewrite He. simpl. eauto.
Qed.

Lemma map_from_ok (raws : list string) (pkgs : list JsrPackage) :
  map_from raws = Ok pkgs -> Forall2 (fun s p => from s = Ok p) raws pkgs.
Proof.
  revert pkgs; induction raws as [|s t IH]; simpl; intros pkgs H.
  - inversion H. constructor.
  - destruct (from s) as [p|e] eqn:Hs; simpl in H; [|discriminate].
    destruct (map_from t) as [ps|e] eqn:Ht; simpl in H; [|discriminate].
    inversion H; subst. constructor; [exact Hs | apply IH; reflexivity].
Qed.

Lemma sapp_inj_l (a x y : string) : a ++ x = a ++ y -> x = y.
Proof. induction a as [|c a IH]; simpl; [auto|]. intros H. injection H. exact IH. Qed.

End InstallArgs.

Module CliArgs.

Lemma map_from_prefix_fail (good : list string) (bad : string) (rest : list string) :
  Forall (fun s => exists p, from s = Ok p) good ->
  (forall p, from bad <> Ok p) ->
  map_from (good ++ bad :: rest)%list = Throw (JsrPackageNameError (invalid_name_message bad)).
Proof.
  intros Hg Hb. induction Hg as [|s t [p Hp] _ IH]; simpl.
  - destruct (from bad) as [p|e] eqn:Hf; [exfalso; exact (Hb p eq_refl)|].
    rewrite (from_error_is_naming _ _ Hf). reflexivity.
  - rewrite Hp. simpl. rewrite IH. reflexivity.
Qed.

Lemma existsb_false_not_in (f : string -> bool) (l : list string) (x : string) :
  existsb f l = false -> f x = true -> ~ In x l.
Proof.
  intros H Hx Hin. assert (E : existsb f l = true) by (apply existsb_exists; eauto).
  congruence.
Qed.

Lemma filter_not_in (x : string) (l : list string) :
  ~ In x (filter (fun arg => negb (String.eqb arg x)) l).
Proof.
  intros Hin. apply filter_In in Hin as [_ H]. rewrite String.eqb_refl in H. discriminate.
Qed.

End CliArgs.

Module HelpRows.

Lemma length_spaces_app (n : nat) (s : string) :
  String.length (spaces n ++ s) = n + String.length s.
Proof. induction n as [|n IH]; simpl; [reflexivity|]. now rewrite IH. Qed.

Lemma fold_width (rows : list (string * string)) (m : nat) :
  let w := fold_left (fun max row => let len := String.length (fst row) in
                                     if Nat.ltb max len then len else max) rows m in
  m <= w /\ (forall row, In row rows -> String.length (fst row) <= w) /\
  (w = m \/ exists row, In row rows /\ String.length (fst row) = w).
Proof.
  revert m. induction rows as [|r t IH]; intros m; cbv zeta; simpl.
  - split; [lia|]. split; [intros _ []|]. left; reflexivity.
  - destruct (IH (if Nat.ltb m (String.length (fst r)) then String.length (fst r) else m))
      as [Hle [Hall Hex]].
    cbv zeta in *.
    destruct (Nat.ltb_spec m (String.length (fst r))) as [Hlt|Hge].
    + split; [lia|]. split.
      * intros row [<-|Hin]; [lia|exact (Hall row Hin)].
      * right. destruct Hex as [Heq|[row [Hin Hl]]]; [exists r; split; [left; reflexivity|symmetry; exact Heq]|exists row; split; [right; exact Hin|exact Hl]].
    + split; [lia|]. split.
      * intros row [<-|Hin]; [lia|exact (Hall row Hin)].
      * destruct Hex as [Heq|[row [Hin Hl]]]; [left; exact Heq|right; exists row; split; [right; exact Hin|exact Hl]].
Qed.

End HelpRows.

(** * The claims *)

Import Parser Locator Writers.

(** C1: every string [JsrPackage.from] accepts is the canonical form
    [@scope/name[@version]] or the proxy form [@jsr/scope__name[@version]]
    of the parsed package; [toString()] gives the canonical form and
    [toNpmPackage()] the proxy form of the same scope, name and version,
    and both parse back to the same package, whichever form the input
    had. *)
Theorem C1_from_roundtrip (s : string) (p : JsrPackage) (H : from s = Ok p) :
  (s = toString p \/ s = toNpmPackage p) /\
  match_EXTRACT_REG (toString p) = Some (scope p, name p, version p) /\
  match_EXTRACT_REG_PROXY (toNpmPackage p) = Some (scope p, name p, version p) /\
  from (toString p) = Ok p /\
  from (toNpmPackage p) = Ok p.
Proof.
  destruct (from_ok_inv s p H) as [Hwf Hs].
  destruct p as [sc nm v].
  split; [exact Hs|].
  split; [rewrite toString_eq; exact (match_reg_canonical _ _ _ Hwf)|].
  split; [rewrite toNpmPackage_eq; exact (match_proxy_proxy_form _ _ _ Hwf)|].
  split; [apply from_toString | apply from_toNpmPackage]; exact Hwf.
Qed.

Lemma C1_from_roundtrip_witness :
  from "@jsr/std__encoding@1.0.0" = Ok (mkJsrPackage "std" "encoding" (Some "1.0.0")) /\
  (("@jsr/std__encoding@1.0.0" = toString (mkJsrPackage "std" "encoding" (Some "1.0.0")) \/
    "@jsr/std__encoding@1.0.0" = toNpmPackage (mkJsrPackage "std" "encoding" (Some "1.0.0"))) /\
   match_EXTRACT_REG (toString (mkJsrPackage "std" "encoding" (Some "1.0.0")))
     = Some ("std", "encoding", Some "1.0.0") /\
   match_EXTRACT_REG_PROXY (toNpmPackage (mkJsrPackage "std" "encoding" (Some "1.0.0")))
     = Some ("std", "encoding", Some "1.0.0") /\
   from (toString (mkJsrPackage "std" "encoding" (Some "1.0.0")))
     = Ok (mkJsrPackage "std" "encoding" (Some "1.0.0")) /\
   from (toNpmPackage (mkJsrPackage "std" "encoding" (Some "1.0.0")))
     = Ok (mkJsrPackage "std" "encoding" (Some "1.0.0"))).
Proof.
  split; [reflexivity|].
  exact (C1_from_roundtrip "@jsr/std__encoding@1.0.0" _ eq_refl).
Defined.

(** C2, counterexample: [JsrPackage.from] accepts [@foo/1], whose name
    [1] does not match [[a-z][a-z0-9-]+]; the name group of both
    expressions is [[a-z0-9-]+]. *)
Lemma C2_name_pattern_counterexample :
  from "@foo/1" = Ok (mkJsrPackage "foo" "1" None) /\
  matches_scope_pattern "1" = false.
Proof. split; reflexivity. Qed.

(** C2, amended: for every input, [JsrPackage.from] either returns a
    package whose scope matches [[a-z][a-z0-9-]+] and whose name matches
    [[a-z0-9-]+], the input being its canonical or its proxy form, or
    throws a [JsrPackageNameError] and no other error.  So an input with
    no scope, an uppercase letter in scope or name, or an empty name
    throws the naming error. *)
Theorem C2_from_outcome (s : string) :
  (exists p, from s = Ok p /\
     matches_scope_pattern (scope p) = true /\
     matches_name_pattern (name p) = true /\
     (s = toString p \/ s = toNpmPackage p)) \/
  from s = Throw (JsrPackageNameError (invalid_name_message s)).
Proof.
  destruct (from s) as [p|e] eqn:E.
  - left. exists p. destruct (from_ok_inv s p E) as [[Hsc [Hn _]] Hs]. auto.
  - right. rewrite (from_error_is_naming s e E). reflexivity.
Qed.

(** C3, counterexample: with [package-lock.json] but no [package.json]
    in the start directory [/app] and a [package.json] in [/], the walk
    stops at [/app] and [projectDir] stays [/app], which has no
    manifest. *)
Lemma C3_lockfile_stops_before_manifest :
  findProjectDir (fs_of [(["app"], "package-lock.json"); ([], "package.json")]
                    (fun _ => JsonObject None)) ["app"]
  = Ok (mkProjectInfo ["app"] (Some npm) None None) /\
  has_pkg (fs_of [(["app"], "package-lock.json"); ([], "package.json")]
             (fun _ => JsonObject None)) ["app"] = false /\
  has_pkg (fs_of [(["app"], "package-lock.json"); ([], "package.json")]
             (fun _ => JsonObject None)) [] = true.
Proof. repeat split; reflexivity. Qed.

(** C3, amended: when [findProjectDir] returns, [projectDir] and
    [pkgJsonPath] name the nearest directory holding a [package.json]
    among the visited ones (the start and its ancestors up to and
    including the first directory with a lockfile, or the root); if none
    has one, [projectDir] is the start directory and [pkgJsonPath] is
    null.  A higher manifest never resets them: with a manifest in the
    start directory, [projectDir] is the start directory. *)
Theorem C3_projectDir_nearest_visited (fs : FileSystem) (cwd : dir) (r : ProjectInfo)
  (H : findProjectDir fs cwd = Ok r) :
  projectDir r = match find (has_pkg fs) (upto_lock fs (ancestors cwd)) with
                 | Some d => d
                 | None => cwd
                 end /\
  pkgJsonPath r = option_map (fun d => join d "package.json")
                    (find (has_pkg fs) (upto_lock fs (ancestors cwd))) /\
  (has_pkg fs cwd = true ->
   projectDir r = cwd /\ pkgJsonPath r = Some (join cwd "package.json")).
Proof.
  unfold findProjectDir in H. rewrite find_walk in H.
  destruct (walk_unrecorded fs _ (initial_info cwd) _ eq_refl H) as [Hp [Hj _]].
  split; [exact Hp|]. split; [exact Hj|].
  intros Hc. rewrite Hp, Hj.
  assert (Hf : find (has_pkg fs) (upto_lock fs (ancestors cwd)) = Some cwd).
  { destruct cwd; simpl; rewrite Hc; reflexivity. }
  rewrite Hf. auto.
Qed.

(** The scenario of the spec: manifests at depth 0 ([/]) and depth 2
    ([/a/b]), no lockfile, located from depth 2. *)
Lemma C3_projectDir_nearest_visited_witness :
  findProjectDir (fs_of [(["b"; "a"], "package.json"); ([], "package.json")]
                    (fun _ => JsonObject None)) ["b"; "a"]
  = Ok (mkProjectInfo ["b"; "a"] None (Some (["b"; "a"], "package.json")) None) /\
  (projectDir (mkProjectInfo ["b"; "a"] None (Some (["b"; "a"], "package.json")) None)
   = match find (has_pkg (fs_of [(["b"; "a"], "package.json"); ([], "package.json")]
                            (fun _ => JsonObject None)))
             (upto_lock (fs_of [(["b"; "a"], "package.json"); ([], "package.json")]
                           (fun _ => JsonObject None)) (ancestors ["b"; "a"])) with
     | Some d => d
     | None => ["b"; "a"]
     end /\
   pkgJsonPath (mkProjectInfo ["b"; "a"] None (Some (["b"; "a"], "package.json")) None)
   = option_map (fun d => join d "package.json")
       (find (has_pkg (fs_of [(["b"; "a"], "package.json"); ([], "package.json")]
                         (fun _ => JsonObject None)))
          (upto_lock (fs_of [(["b"; "a"], "package.json"); ([], "package.json")]
                        (fun _ => JsonObject None)) (ancestors ["b"; "a"]))) /\
   (has_pkg (fs_of [(["b"; "a"], "package.json"); ([], "package.json")]
               (fun _ => JsonObject None)) ["b"; "a"] = true ->
    projectDir (mkProjectInfo ["b"; "a"] None (Some (["b"; "a"], "package.json")) None)
    = ["b"; "a"] /\
    pkgJsonPath (mkProjectInfo ["b"; "a"] None (Some (["b"; "a"], "package.json")) None)
    = Some (join ["b"; "a"] "package.json"))).
Proof.
  split; [reflexivity|].
  apply C3_projectDir_nearest_visited. reflexivity.
Defined.

(** C4: when [findProjectDir] returns, [pkgManagerName] is the lockfile
    kind of the nearest directory (from the start upwards) holding any
    lockfile, with the in-directory priority package-lock.json (npm),
    bun.lockb (bun), yarn.lock (yarn), pnpm-lock.yaml (pnpm); the walk
    stops there: any filesystem that agrees on the visited directories
    gives the same result, whatever lies higher up; and a directory with
    both bun.lockb and yarn.lock (and no package-lock.json) counts as
    bun. *)
Theorem C4_first_lockfile_decides (fs : FileSystem) (cwd : dir) (r : ProjectInfo)
  (H : findProjectDir fs cwd = Ok r) :
  pkgManagerName r = first_lock fs (ancestors cwd) /\
  (forall fs' : FileSystem,
     (forall d, In d (upto_lock fs (ancestors cwd)) -> agree_at fs fs' d) ->
     findProjectDir fs' cwd = Ok r) /\
  (forall d, fileExists fs (join d "package-lock.json") = false ->
             fileExists fs (join d "bun.lockb") = true ->
             fileExists fs (join d "yarn.lock") = true ->
             lock_at fs d = Some bun).
Proof.
  unfold findProjectDir in *. rewrite find_walk in *.
  split.
  - rewrite (walk_manager _ _ _ _ H). destruct (first_lock fs (ancestors cwd)); reflexivity.
  - split.
    + intros fs' Hag. rewrite find_walk, (walk_agree fs fs' _ _ Hag). exact H.
    + intros d Hn Hb _. unfold lock_at; simpl. rewrite Hn, Hb. reflexivity.
Qed.

(** A project [/p] holding both bun.lockb and yarn.lock. *)
Lemma C4_first_lockfile_decides_witness :
  findProjectDir (fs_of [(["p"], "bun.lockb"); (["p"], "yarn.lock")]
                    (fun _ => JsonObject None)) ["p"]
  = Ok (mkProjectInfo ["p"] (Some bun) None None) /\
  pkgManagerName (mkProjectInfo ["p"] (Some bun) None None) = Some bun /\
  (pkgManagerName (mkProjectInfo ["p"] (Some bun) None None)
   = first_lock (fs_of [(["p"], "bun.lockb"); (["p"], "yarn.lock")]
                   (fun _ => JsonObject None)) (ancestors ["p"]) /\
   (forall fs' : FileSystem,
      (forall d, In d (upto_lock (fs_of [(["p"], "bun.lockb"); (["p"], "yarn.lock")]
                                     (fun _ => JsonObject None)) (ancestors ["p"])) ->
                 agree_at (fs_of [(["p"], "bun.lockb"); (["p"], "yarn.lock")]
                             (fun _ => JsonObject None)) fs' d) ->
      findProjectDir fs' ["p"] = Ok (mkProjectInfo ["p"] (Some bun) None None)) /\
   (forall d, fileExists (fs_of [(["p"], "bun.lockb"); (["p"], "yarn.lock")]
                            (fun _ => JsonObject None)) (join d "package-lock.json") = false ->
              fileExists (fs_of [(["p"], "bun.lockb"); (["p"], "yarn.lock")]
                            (fun _ => JsonObject None)) (join d "bun.lockb") = true ->
              fileExists (fs_of [(["p"], "bun.lockb"); (["p"], "yarn.lock")]
                            (fun _ => JsonObject None)) (join d "yarn.lock") = true ->
              lock_at (fs_of [(["p"], "bun.lockb"); (["p"], "yarn.lock")]
                         (fun _ => JsonObject None)) d = Some bun)).
Proof.
  split; [reflexivity|]. split; [reflexivity|].
  apply C4_first_lockfile_decides. reflexivity.
Defined.

(** C5, counterexample: a parent [/tmp] whose package.json has
    [workspaces: []] (no glob, so no member) and no pnpm-workspace.yaml
    still becomes [root] when locating from [/tmp/sub]. *)
Lemma C5_empty_workspaces_sets_root :
  findProjectDir (fs_of [(["sub"; "tmp"], "package.json"); (["tmp"], "package.json")]
                    (fun d => if dir_eqb d ["tmp"] then JsonObject (Some []) else JsonObject None))
    ["sub"; "tmp"]
  = Ok (mkProjectInfo ["sub"; "tmp"] None (Some (["sub"; "tmp"], "package.json")) (Some ["tmp"])) /\
  readPkgJson (fs_of [(["sub"; "tmp"], "package.json"); (["tmp"], "package.json")]
                 (fun d => if dir_eqb d ["tmp"] then JsonObject (Some []) else JsonObject None))
    ["tmp"] = JsonObject (Some []) /\
  fileExists (fs_of [(["sub"; "tmp"], "package.json"); (["tmp"], "package.json")]
                (fun d => if dir_eqb d ["tmp"] then JsonObject (Some []) else JsonObject None))
    (join ["tmp"] "pnpm-workspace.yaml") = false.
Proof. repeat split; reflexivity. Qed.

(** C5, amended: when [findProjectDir] returns, [root] is the highest
    directory among the visited ones strictly above the directory where
    the nearest package.json was recorded whose package.json has an array
    [workspaces] field (any globs) or sits next to a pnpm-workspace.yaml
    (not read); null if there is none.  Membership of the start directory
    is not checked. *)
Theorem C5_root_is_last_workspace_marker (fs : FileSystem) (cwd : dir) (r : ProjectInfo)
  (H : findProjectDir fs cwd = Ok r) :
  root r = last_marker fs (after_manifest fs (upto_lock fs (ancestors cwd))) None.
Proof.
  unfold findProjectDir in H. rewrite find_walk in H.
  destruct (walk_unrecorded fs _ (initial_info cwd) _ eq_refl H) as [_ [_ Hr]].
  exact Hr.
Qed.

(** The workspace scenario of the spec: [/tmp/package.json] declares
    [workspaces: ["sub"]], located from [/tmp/sub]. *)
Lemma C5_root_is_last_workspace_marker_witness :
  findProjectDir (fs_of [(["sub"; "tmp"], "package.json"); (["tmp"], "package.json")]
                    (fun d => if dir_eqb d ["tmp"] then JsonObject (Some ["sub"]) else JsonObject None))
    ["sub"; "tmp"]
  = Ok (mkProjectInfo ["sub"; "tmp"] None (Some (["sub"; "tmp"], "package.json")) (Some ["tmp"])) /\
  root (mkProjectInfo ["sub"; "tmp"] None (Some (["sub"; "tmp"], "package.json")) (Some ["tmp"]))
  = last_marker (fs_of [(["sub"; "tmp"], "package.json"); (["tmp"], "package.json")]
                   (fun d => if dir_eqb d ["tmp"] then JsonObject (Some ["sub"]) else JsonObject None))
      (after_manifest (fs_of [(["sub"; "tmp"], "package.json"); (["tmp"], "package.json")]
                         (fun d => if dir_eqb d ["tmp"] then JsonObject (Some ["sub"]) else JsonObject None))
         (upto_lock (fs_of [(["sub"; "tmp"], "package.json"); (["tmp"], "package.json")]
                       (fun d => if dir_eqb d ["tmp"] then JsonObject (Some ["sub"]) else JsonObject None))
            (ancestors ["sub"; "tmp"]))) None.
Proof.
  split; [reflexivity|].
  apply (C5_root_is_last_workspace_marker _ _
           (mkProjectInfo ["sub"; "tmp"] None (Some (["sub"; "tmp"], "package.json")) (Some ["tmp"]))).
  reflexivity.
Defined.

Lemma second_call_keeps (st1 : FileState) (w : WriterResult) :
  (st1 <> Unreadable -> w = Ok None) -> (st1 = Unreadable -> w = Throw read_error) ->
  apply_write st1 w = st1.
Proof.
  destruct st1 as [| |]; intros H1 H2;
    [rewrite H1 by discriminate | rewrite H1 by discriminate | rewrite H2 by reflexivity];
    reflexivity.
Qed.

(** C6: both writers are no-ops on a file whose content already has the
    mapping key ([@jsr:registry=] as a substring for .npmrc, a line
    starting with ["@jsr"] followed by spaces and [=] for bunfig.toml), and
    a second call after a first one, from any initial state, writes
    nothing and leaves the file as the first call left it. *)
Theorem C6_writers_idempotent (st : FileState) :
  apply_write (apply_write st (setupNpmRc st)) (setupNpmRc (apply_write st (setupNpmRc st)))
    = apply_write st (setupNpmRc st) /\
  (apply_write st (setupNpmRc st) <> Unreadable ->
   setupNpmRc (apply_write st (setupNpmRc st)) = Ok None) /\
  apply_write (apply_write st (setupBunfigToml st))
      (setupBunfigToml (apply_write st (setupBunfigToml st)))
    = apply_write st (setupBunfigToml st) /\
  (apply_write st (setupBunfigToml st) <> Unreadable ->
   setupBunfigToml (apply_write st (setupBunfigToml st)) = Ok None) /\
  (forall content, includes content "@jsr:registry=" = true ->
     setupNpmRc (Contents content) = Ok None) /\
  (forall content, bunfig_key_test true content = true ->
     setupBunfigToml (Contents content) = Ok None).
Proof.
  repeat split.
  - apply second_call_keeps; [apply npmrc_second_call|intros ->; reflexivity].
  - apply npmrc_second_call.
  - apply second_call_keeps; [apply bunfig_second_call|intros ->; reflexivity].
  - apply bunfig_second_call.
  - intros content Hc. cbn -[includes]. rewrite Hc. reflexivity.
  - intros content Hc. cbn -[bunfig_key_test]. rewrite Hc. reflexivity.
Qed.

(** C7 (defect): [setupBunfigToml] appends the mapping to a bunfig.toml
    whose content [x = 1] does not end with a line break without any
    separator, gluing [[install.scopes]] to the last line, whereas
    [setupNpmRc] inserts the separator on the same content. *)
Theorem C7_bunfig_appends_without_separator :
  setupBunfigToml (Contents "x = 1") = Ok (Some ("x = 1" ++ JSR_BUNFIG)) /\
  "x = 1" ++ JSR_BUNFIG = "x = 1[install.scopes]" ++ LF ++ bunfig_tail /\
  endsWith "x = 1" (getNewLineChars "x = 1") = false /\
  setupNpmRc (Contents "x = 1") = Ok (Some ("x = 1" ++ LF ++ JSR_NPMRC)).
Proof. repeat split; reflexivity. Qed.

(** C8 (defect): the pnpm adapter's [remove] spawns [yarn], not [pnpm],
    while its [install] and [runScript], and the [remove] of the npm and
    bun adapters, spawn their own manager. *)
Theorem C8_pnpm_remove_spawns_yarn :
  remove Pnpm [mkJsrPackage "std" "encoding" None]
    = mkCommand "yarn" ["remove"; "@std/encoding"] /\
  install (fun _ => Ok "1.0.0") Pnpm [mkJsrPackage "std" "encoding" None] dev
    = Ok (mkCommand "pnpm" ["add"; "--save-dev"; "@std/encoding@npm:@jsr/std__encoding"]) /\
  runScript Pnpm "test" = mkCommand "pnpm" ["test"] /\
  cmd (remove Npm [mkJsrPackage "std" "encoding" None]) = "npm" /\
  cmd (remove Bun [mkJsrPackage "std" "encoding" None]) = "bun".
Proof. repeat split; reflexivity. Qed.

(** C9: with no version given, [showPackageInfo] takes a non-null
    [latest]; with [latest] null and versions published, the least
    version under the comparator handed to [sort] (the first after the
    ascending sort, not the newest); with [latest] null and no versions,
    or [latest] missing, it throws an error naming the package.  The
    comparator is assumed to be a total preorder on the published
    versions. *)
Theorem C9_show_version_selection (semiver : string -> string -> Z)
  (pkg : JsrPackage) (meta : PackageMeta)
  (Hnov : version pkg = None)
  (Htotal : forall a b, In a (versions meta) -> In b (versions meta) ->
            (semiver a b <= 0 \/ semiver b a <= 0)%Z)
  (Htrans : forall a b c, In a (versions meta) -> In b (versions meta) ->
            In c (versions meta) ->
            (semiver a b <= 0 -> semiver b c <= 0 -> semiver a c <= 0)%Z) :
  match latest meta with
  | LatestVersion v => resolveShowVersion semiver pkg meta = Ok (set_version pkg (Some v))
  | LatestNull =>
      match versions meta with
      | [] => resolveShowVersion semiver pkg meta
              = Throw (PlainError ("Could not find published version for " ++ toString pkg))
      | _ => exists v, resolveShowVersion semiver pkg meta = Ok (set_version pkg (Some v)) /\
             In v (versions meta) /\
             forall w, In w (versions meta) -> (semiver v w <= 0)%Z
      end
  | LatestMissing => resolveShowVersion semiver pkg meta
                     = Throw (PlainError ("Missing latest version for " ++ toString pkg))
  end.
Proof.
  unfold resolveShowVersion. rewrite Hnov.
  destruct (latest meta); try reflexivity.
  pose proof (Sorting.sort_least semiver (fun w => In w (versions meta)) Htotal Htrans
                (versions meta) (fun w H => H)) as Hleast.
  destruct (versions meta) as [|x l]; [reflexivity|].
  destruct (Hleast ltac:(discriminate)) as [v [t [Hs [Hin Hmin]]]].
  exists v. cbn [List.length Nat.eqb]. rewrite Hs. simpl. auto.
Qed.

(** Evaluate every [semver_precedence] application of the goal. *)
Ltac eval_semver :=
  repeat match goal with
  | |- context [semver_precedence ?x ?y] =>
      let v := eval vm_compute in (semver_precedence x y) in
      change (semver_precedence x y) with v
  end.

(** The scenario of the spec: [latest: null] with pre-releases
    [1.0.0-rc.1] and [0.9.0-rc.2] selects [0.9.0-rc.2]. *)
Lemma C9_show_version_selection_witness :
  resolveShowVersion semver_precedence (mkJsrPackage "fresh" "update" None)
    (mkPackageMeta LatestNull ["1.0.0-rc.1"; "0.9.0-rc.2"])
  = Ok (mkJsrPackage "fresh" "update" (Some "0.9.0-rc.2")) /\
  (exists v, resolveShowVersion semver_precedence (mkJsrPackage "fresh" "update" None)
               (mkPackageMeta LatestNull ["1.0.0-rc.1"; "0.9.0-rc.2"])
             = Ok (set_version (mkJsrPackage "fresh" "update" None) (Some v)) /\
           In v ["1.0.0-rc.1"; "0.9.0-rc.2"] /\
           forall w, In w ["1.0.0-rc.1"; "0.9.0-rc.2"] -> (semver_precedence v w <= 0)%Z).
Proof.
  split; [reflexivity|].
  exact (C9_show_version_selection semver_precedence (mkJsrPackage "fresh" "update" None)
           (mkPackageMeta LatestNull ["1.0.0-rc.1"; "0.9.0-rc.2"]) eq_refl
           (fun a b Ha Hb =>
              ltac:(simpl in Ha, Hb;
                    destruct Ha as [<-|[<-|[]]], Hb as [<-|[<-|[]]]; eval_semver; lia))
           (fun a b c Ha Hb Hc =>
              ltac:(simpl in Ha, Hb, Hc;
                    destruct Ha as [<-|[<-|[]]], Hb as [<-|[<-|[]]], Hc as [<-|[<-|[]]];
                    eval_semver; lia))).
Defined.

(** C10: in every command body run by [run], the first subprocess that
    exits with a non-zero code [c] rejects with [ExecError c] and the
    process exits with [c]; a [JsrPackageNameError] prints its message
    and exits with 1; any other error is rethrown by [run], and the
    unhandled rejection ends the process with a non-zero code. *)
Theorem C10_run_exit_codes (pre post : list Step) (c : Z) (msg : string) (e : JsError)
  (Hpre : run_steps pre = Ok tt) (Hc : c <> 0%Z)
  (Hname : forall m, e <> JsrPackageNameError m) (Hexec : forall k, e <> ExecError k) :
  run_steps (pre ++ Subprocess (Some c) :: post) = Throw (ExecError c) /\
  run (run_steps (pre ++ Subprocess (Some c) :: post)) = Exited c (exec_error_message c) /\
  process_exit_code (run (run_steps (pre ++ Subprocess (Some c) :: post))) = c /\
  run (run_steps (pre ++ Other (Throw (JsrPackageNameError msg)) :: post)) = Exited 1 msg /\
  run (run_steps (pre ++ Other (Throw e) :: post)) = Rethrown e /\
  process_exit_code (run (run_steps (pre ++ Other (Throw e) :: post))) <> 0%Z.
Proof.
  rewrite !(Runner.run_steps_app pre _ Hpre). simpl.
  apply Z.eqb_neq in Hc. rewrite Hc. simpl.
  destruct e as [m|k|m];
    [exfalso; eapply Hname; reflexivity | exfalso; eapply Hexec; reflexivity |].
  repeat split; try reflexivity. simpl. discriminate.
Qed.

Lemma C10_run_exit_codes_witness :
  run_steps [Subprocess (Some 0%Z)] = Ok tt /\ (3 <> 0)%Z /\
  run_steps ([Subprocess (Some 0%Z)] ++ Subprocess (Some 3%Z) :: []) = Throw (ExecError 3) /\
  run (run_steps ([Subprocess (Some 0%Z)] ++ Subprocess (Some 3%Z) :: []))
    = Exited 3 (exec_error_message 3) /\
  process_exit_code (run (run_steps ([Subprocess (Some 0%Z)] ++ Subprocess (Some 3%Z) :: []))) = 3%Z /\
  run (run_steps ([Subprocess (Some 0%Z)] ++ Other (Throw (JsrPackageNameError "bad")) :: []))
    = Exited 1 "bad" /\
  run (run_steps ([Subprocess (Some 0%Z)] ++ Other (Throw (PlainError "boom")) :: []))
    = Rethrown (PlainError "boom") /\
  process_exit_code (run (run_steps ([Subprocess (Some 0%Z)] ++ Other (Throw (PlainError "boom")) :: [])))
    <> 0%Z.
Proof.
  split; [reflexivity|]. split; [lia|].
  apply (C10_run_exit_codes [Subprocess (Some 0%Z)] [] 3 "bad" (PlainError "boom"));
    [reflexivity | lia | intros m; discriminate | intros k; discriminate].
Defined.

(** * Further properties of the code *)

(** getNewLineChars ([src/src/utils.ts], lines 245-251): without a line feed the result is LF; a text starting with LF gives LF; otherwise the first line feed decides, giving CR LF exactly when the character before it is a carriage return. *)
Theorem getNewLineChars_first_line_break (a b : string) (c : ascii) :
  (index 0 LF a = None -> getNewLineChars a = LF) /\
  getNewLineChars (LF ++ b) = LF /\
  (index 0 LF (a ++ String c EmptyString) = None ->
   getNewLineChars (a ++ String c (LF ++ b)) = if Nat.eqb (code c) 13 then CR ++ LF else LF).
Proof.
  split; [intros H; unfold getNewLineChars; rewrite H; reflexivity|].
  split; [destruct b; reflexivity|].
  intros H. unfold getNewLineChars.
  replace (a ++ String c (LF ++ b)) with ((a ++ String c EmptyString) ++ LF ++ b)
    by (rewrite sapp_assoc; reflexivity).
  rewrite (NewLines.index_LF_app _ _ H), NewLines.length_snoc.
  rewrite sapp_assoc. cbn [append]. rewrite NewLines.get_snoc. reflexivity.
Qed.

(** prettyTime ([src/src/utils.ts], lines 151-173): up to one second it prints milliseconds; above, it prints the whole number of the largest unit (s, m, h, d) the difference exceeds, a count in 1..60, 1..60, 1..24, or at least 1 for days. *)
Theorem prettyTime_units (diff : Z) :
  ((diff <= 1000)%Z -> prettyTime diff = number_to_string diff ++ "ms") /\
  ((1000 < diff <= 60000)%Z ->
     prettyTime diff = number_to_string (diff / 1000) ++ "s" /\ (1 <= diff / 1000 <= 60)%Z) /\
  ((60000 < diff <= 3600000)%Z ->
     prettyTime diff = number_to_string (diff / 60000) ++ "m" /\ (1 <= diff / 60000 <= 60)%Z) /\
  ((3600000 < diff <= 86400000)%Z ->
     prettyTime diff = number_to_string (diff / 3600000) ++ "h" /\ (1 <= diff / 3600000 <= 24)%Z) /\
  ((86400000 < diff)%Z ->
     prettyTime diff = number_to_string (diff / 86400000) ++ "d" /\ (1 <= diff / 86400000)%Z).
Proof.
  unfold prettyTime.
  change PERIODS_day with 86400000%Z; change PERIODS_hour with 3600000%Z;
  change PERIODS_minute with 60000%Z; change PERIODS_seconds with 1000%Z.
  repeat split; intros; gtb_cases; try (exfalso; lia); try reflexivity;
    try split; try reflexivity; Z.div_mod_to_equations; lia.
Qed.

(** timeAgo ([src/src/utils.ts], lines 151-200): up to one second it is the text just now; above, the count of the largest exceeded unit (second to year) followed by the unit, with the count within that unit range. *)
Theorem timeAgo_units (diff : Z) :
  ((diff <= 1000)%Z -> timeAgo diff = "just now") /\
  ((1000 < diff <= 60000)%Z ->
     timeAgo diff = ago (diff / 1000) "second" /\ (1 <= diff / 1000 <= 60)%Z) /\
  ((60000 < diff <= 3600000)%Z ->
     timeAgo diff = ago (diff / 60000) "minute" /\ (1 <= diff / 60000 <= 60)%Z) /\
  ((3600000 < diff <= 86400000)%Z ->
     timeAgo diff = ago (diff / 3600000) "hour" /\ (1 <= diff / 3600000 <= 24)%Z) /\
  ((86400000 < diff <= 604800000)%Z ->
     timeAgo diff = ago (diff / 86400000) "day" /\ (1 <= diff / 86400000 <= 7)%Z) /\
  ((604800000 < diff <= 2592000000)%Z ->
     timeAgo diff = ago (diff / 604800000) "week" /\ (1 <= diff / 604800000 <= 4)%Z) /\
  ((2592000000 < diff <= 31536000000)%Z ->
     timeAgo diff = ago (diff / 2592000000) "month" /\ (1 <= diff / 2592000000 <= 12)%Z) /\
  ((31536000000 < diff)%Z ->
     timeAgo diff = ago (diff / 31536000000) "year" /\ (1 <= diff / 31536000000)%Z).
Proof.
  unfold timeAgo.
  change PERIODS_year with 31536000000%Z; change PERIODS_month with 2592000000%Z;
  change PERIODS_week with 604800000%Z;
  change PERIODS_day with 86400000%Z; change PERIODS_hour with 3600000%Z;
  change PERIODS_minute with 60000%Z; change PERIODS_seconds with 1000%Z.
  repeat split; intros; gtb_cases; try (exfalso; lia); try reflexivity;
    try split; try reflexivity; Z.div_mod_to_equations; lia.
Qed.

(** findProjectDir: a root it reports is a workspace marker, the reported package.json lies in projectDir, and projectDir is a strict descendant of the root. *)
Theorem findProjectDir_root_strict_ancestor (fs : FileSystem) (cwd : dir) (r : ProjectInfo)
  (d : dir) (H : findProjectDir fs cwd = Ok r) (Hr : root r = Some d) :
  ws_marker fs d = true /\
  pkgJsonPath r = Some (join (projectDir r) "package.json") /\
  exists pre, pre <> [] /\ projectDir r = (pre ++ d)%list.
Proof.
  unfold findProjectDir in H. rewrite find_walk in H.
  destruct (walk_unrecorded fs _ (initial_info cwd) _ eq_refl H) as [Hp [Hj Hroot]].
  rewrite Hroot in Hr.
  destruct (ProjectWalk.last_marker_in _ _ _ _ Hr) as [E|[Hin Hw]]; [discriminate|].
  destruct (ProjectWalk.after_manifest_strict _ _ _ Hin) as [d0 [pre [Hf [Hne E]]]].
  rewrite Hf in Hp, Hj. simpl in Hp, Hj. rewrite Hp, Hj.
  split; [exact Hw|]. split; [reflexivity|]. exists pre. auto.
Qed.

Lemma findProjectDir_root_strict_ancestor_witness :
  findProjectDir Scenarios.ws_fs ["sub"; "tmp"]
  = Ok (mkProjectInfo ["sub"; "tmp"] None (Some (["sub"; "tmp"], "package.json")) (Some ["tmp"])) /\
  ws_marker Scenarios.ws_fs ["tmp"] = true /\
  exists pre, pre <> [] /\ ["sub"; "tmp"] = (pre ++ ["tmp"])%list.
Proof.
  split; [reflexivity|].
  destruct (findProjectDir_root_strict_ancestor Scenarios.ws_fs ["sub"; "tmp"]
              (mkProjectInfo ["sub"; "tmp"] None (Some (["sub"; "tmp"], "package.json")) (Some ["tmp"]))
              ["tmp"] eq_refl eq_refl) as [Hm [_ Hp]].
  split; [exact Hm | exact Hp].
Defined.

(** findProjectDir throws exactly when a package.json above the nearest one, within the lockfile-bounded walk, fails to parse; getPkgManager then throws too. *)
Theorem findProjectDir_fails_on_unparsable_pkg_json (fs : FileSystem) (cwd : dir) :
  ((exists e, findProjectDir fs cwd = Throw e) <->
   exists d, In d (after_manifest fs (upto_lock fs (ancestors cwd))) /\
             has_pkg fs d = true /\ readPkgJson fs d = JsonThrows) /\
  (forall userAgent yarnVersion requested,
     (exists e, findProjectDir fs cwd = Throw e) ->
     exists e, getPkgManager fs userAgent yarnVersion cwd requested = Throw e).
Proof.
  split.
  - unfold findProjectDir. rewrite find_walk.
    exact (ProjectWalk.walk_error_unrecorded fs _ (initial_info cwd) eq_refl).
  - intros ua yv n [e He]. exists e. unfold getPkgManager. rewrite He. reflexivity.
Qed.

(** getPkgManagerFromEnv ([src/src/pkg_manager.ts], lines 305-311): it returns a manager exactly when the user agent starts with that name and a slash. *)
Theorem getPkgManagerFromEnv_prefix (value : string) (n : PkgManagerName) :
  getPkgManagerFromEnv value = Some n <->
  startsWith value (pkgManagerNameString n ++ "/") = true.
Proof.
  unfold getPkgManagerFromEnv, startsWith.
  destruct value as [|c r].
  - destruct n; simpl; split; discriminate.
  - destruct n; cbn [pkgManagerNameString append prefix];
      destruct (ascii_dec "p" c) as [Hp|Hp]; destruct (ascii_dec "y" c) as [Hy|Hy];
      destruct (ascii_dec "n" c) as [Hn|Hn]; destruct (ascii_dec "b" c) as [Hb|Hb];
      try congruence; cbn [prefix];
      repeat match goal with
             | |- context [if ?b then _ else _] => destruct b
             end; split; congruence.
Qed.

(** getPkgManager ([src/src/pkg_manager.ts], lines 313-339): the requested manager wins over the user agent, which wins over the nearest lockfile, then npm; yarn becomes YarnBerry unless its version is empty or starts with 1., and a failing version query is passed on. *)
Theorem getPkgManager_selection (fs : FileSystem) (userAgent : option string)
  (yarnVersion : dir -> res string) (cwd : dir) (requested : option PkgManagerName)
  (info : ProjectInfo) (H : findProjectDir fs cwd = Ok info) :
  let chosen :=
    match requested with
    | Some n => n
    | None =>
        match match userAgent with Some v => getPkgManagerFromEnv v | None => None end with
        | Some n => n
        | None => match first_lock fs (ancestors cwd) with Some n => n | None => npm end
        end
    end in
  (chosen = npm -> getPkgManager fs userAgent yarnVersion cwd requested
                   = Ok (mkAdapter Npm (projectDir info))) /\
  (chosen = pnpm -> getPkgManager fs userAgent yarnVersion cwd requested
                    = Ok (mkAdapter Pnpm (projectDir info))) /\
  (chosen = bun -> getPkgManager fs userAgent yarnVersion cwd requested
                   = Ok (mkAdapter Bun (projectDir info))) /\
  (chosen = yarn ->
   match yarnVersion (projectDir info) with
   | Ok v => getPkgManager fs userAgent yarnVersion cwd requested
             = Ok (mkAdapter (if String.eqb v "" || startsWith v "1." then Yarn else YarnBerry)
                     (projectDir info))
   | Throw e => getPkgManager fs userAgent yarnVersion cwd requested = Throw e
   end).
Proof.
  assert (Hm : pkgManagerName info = first_lock fs (ancestors cwd)).
  { unfold findProjectDir in H. rewrite find_walk in H.
    rewrite (walk_manager _ _ _ _ H). destruct (first_lock fs (ancestors cwd)); reflexivity. }
  intros chosen. subst chosen. unfold getPkgManager. rewrite H. destruct info as [pd fl pj rt].
  cbn [pkgManagerName projectDir bind] in *. subst fl.
  destruct requested as [n|];
    [|destruct (match userAgent with Some v => getPkgManagerFromEnv v | None => None end) as [n|];
      [|destruct (first_lock fs (ancestors cwd)) as [n|]]];
    [destruct n ..|];
    repeat split; intros E; try discriminate; try reflexivity;
    unfold isYarnBerry; destruct (yarnVersion pd) as [v|e]; simpl; try reflexivity;
    destruct (String.eqb v ""); simpl; try reflexivity;
    destruct (startsWith v "1."); reflexivity.
Qed.

Lemma getPkgManager_selection_witness :
  findProjectDir Scenarios.yarn_fs ["p"]
  = Ok (mkProjectInfo ["p"] (Some yarn) (Some (["p"], "package.json")) None) /\
  getPkgManager Scenarios.yarn_fs None (fun _ => Ok "4.1.0") ["p"] None
  = Ok (mkAdapter YarnBerry ["p"]).
Proof.
  split; [reflexivity|].
  exact (proj2 (proj2 (proj2 (getPkgManager_selection Scenarios.yarn_fs None (fun _ => Ok "4.1.0")
           ["p"] None (mkProjectInfo ["p"] (Some yarn) (Some (["p"], "package.json")) None)
           eq_refl))) eq_refl).
Defined.

(** YarnBerry.install: every package without a version gets the caret of its latest registry version, versioned packages are kept, and the command is yarn add with the mode flag. *)
Theorem yarnBerry_install_fills_versions (latest : JsrPackage -> res string)
  (pkgs : list JsrPackage) (mode : Mode) (c : Command)
  (H : install latest YarnBerry pkgs mode = Ok c) :
  exists pkgs', cmd c = "yarn" /\
    args c = with_mode "add" (modeToFlagYarn mode) (toPackageArgs pkgs') /\
    Forall2 (fun p p' => scope p' = scope p /\ name p' = name p /\
               match version p with
               | Some v => version p' = Some v
               | None => exists w, latest p = Ok w /\ version p' = Some ("^" ++ w)
               end) pkgs pkgs'.
Proof.
  simpl in H. destruct (resolve_versions latest pkgs) as [pkgs'|e] eqn:Hr; simpl in H; [|discriminate].
  inversion H; subst. exists pkgs'. split; [reflexivity|]. split; [reflexivity|].
  exact (InstallArgs.resolve_versions_ok _ _ _ Hr).
Qed.

Lemma yarnBerry_install_fills_versions_witness :
  install (fun _ => Ok "1.2.0") YarnBerry [mkJsrPackage "std" "fs" None] prod
  = Ok (mkCommand "yarn" ["add"; "@std/fs@npm:@jsr/std__fs@^1.2.0"]) /\
  exists pkgs', args (mkCommand "yarn" ["add"; "@std/fs@npm:@jsr/std__fs@^1.2.0"])
                = with_mode "add" (modeToFlagYarn prod) (toPackageArgs pkgs').
Proof.
  split; [reflexivity|].
  destruct (yarnBerry_install_fills_versions (fun _ => Ok "1.2.0") [mkJsrPackage "std" "fs" None] prod
              (mkCommand "yarn" ["add"; "@std/fs@npm:@jsr/std__fs@^1.2.0"]) eq_refl)
    as [pkgs' [_ [Ha _]]].
  exists pkgs'. exact Ha.
Defined.

(** install consults the registry only for YarnBerry and only for packages without a version; a failing lookup of such a package makes the YarnBerry install throw. *)
Theorem install_registry_lookups (latest1 latest2 : JsrPackage -> res string)
  (pm : PackageManager) (pkgs : list JsrPackage) (mode : Mode) :
  (pm <> YarnBerry -> install latest1 pm pkgs mode = install latest2 pm pkgs mode) /\
  ((forall p, In p pkgs -> version p = None -> latest1 p = latest2 p) ->
   install latest1 pm pkgs mode = install latest2 pm pkgs mode) /\
  (pm = YarnBerry ->
   forall p e, In p pkgs -> version p = None -> latest1 p = Throw e ->
   exists e', install latest1 pm pkgs mode = Throw e').
Proof.
  split; [|split].
  - destruct pm; try reflexivity. intros E; exfalso; apply E; reflexivity.
  - intros Hag. destruct pm; try reflexivity. simpl.
    rewrite (InstallArgs.resolve_versions_frame latest1 latest2 pkgs Hag). reflexivity.
  - intros -> p e Hin Hv Hl. simpl.
    destruct (InstallArgs.resolve_versions_fail _ _ _ _ Hin Hv Hl) as [e' He].
    rewrite He. simpl. eauto.
Qed.


(** For parsed packages, every install argument is the unversioned name, which parses back, aliased to the npm proxy name; remove passes toString of each package, which differs from the unversioned name exactly when a version is given. *)
Theorem install_alias_and_remove_name (pm : PackageManager) (raws : list string)
  (pkgs : list JsrPackage) (H : map_from raws = Ok pkgs) :
  Forall2 (fun a p =>
             a = toString (set_version p None) ++ "@npm:" ++ toNpmPackage p /\
             from (toString (set_version p None)) = Ok (set_version p None))
          (toPackageArgs pkgs) pkgs /\
  args (remove pm pkgs) = "remove" :: map toString pkgs /\
  Forall (fun p => toString p = toString (set_version p None) <-> version p = None) pkgs.
Proof.
  pose proof (InstallArgs.map_from_ok _ _ H) as Hf.
  assert (Hwf : Forall (fun p => wf p) pkgs).
  { clear H. induction Hf; constructor; [exact (proj1 (from_ok_inv _ _ H))|exact IHHf]. }
  split; [|split].
  - clear H Hf. induction Hwf as [|p t Hp _ IH]; constructor; [|exact IH].
    split.
    + unfold toString, set_version, version_suffix; cbn [scope name version].
      rewrite !sapp_assoc. reflexivity.
    + apply from_toString. destruct Hp as [Hs [Hn _]]. split; [exact Hs|]. split; [exact Hn|exact I].
  - destruct pm; reflexivity.
  - clear H Hf. induction Hwf as [|p t Hp _ IH]; constructor; [|exact IH].
    destruct p as [sc nm [v|]]; unfold toString, set_version, version_suffix; cbn [scope name version].
    + split; [|discriminate]. intros E.
      cbn [append] in E. injection E as E.
      apply InstallArgs.sapp_inj_l in E. cbn [append] in E. injection E as E.
      apply InstallArgs.sapp_inj_l in E. discriminate.
    + split; reflexivity.
Qed.

Lemma install_alias_and_remove_name_witness :
  map_from ["@std/fs@1.0.0"] = Ok [mkJsrPackage "std" "fs" (Some "1.0.0")] /\
  args (remove Pnpm [mkJsrPackage "std" "fs" (Some "1.0.0")]) = ["remove"; "@std/fs@1.0.0"].
Proof.
  split; [reflexivity|].
  exact (proj1 (proj2 (install_alias_and_remove_name Pnpm ["@std/fs@1.0.0"]
                         [mkJsrPackage "std" "fs" (Some "1.0.0")] eq_refl))).
Defined.

(** getPackages ([src/unnamed/part_005], lines 125-137): its packages are the parses of the positionals after the command; it reports missing packages exactly when none are given and empty lists are not allowed; the first unparsable argument makes run exit with code 1 and its naming message. *)
Theorem getPackages_outcomes (positionals : list string) (allowEmpty : bool) :
  (forall pkgs, getPackages positionals allowEmpty = Ok (GotPackages pkgs) ->
     Forall2 (fun s p => from s = Ok p) (tl positionals) pkgs /\
     (allowEmpty = true \/ tl positionals <> [])) /\
  (getPackages positionals allowEmpty = Ok MissingPackages <->
   allowEmpty = false /\ tl positionals = []) /\
  (forall good bad rest,
     tl positionals = (good ++ bad :: rest)%list ->
     Forall (fun s => exists p, from s = Ok p) good ->
     (forall p, from bad <> Ok p) ->
     forall k : Packages -> res unit,
       run (ps <- getPackages positionals allowEmpty ;; k ps)
       = Exited 1 (invalid_name_message bad)).
Proof.
  unfold getPackages. split; [|split].
  - intros pkgs. destruct (map_from (tl positionals)) as [ps|e] eqn:Hm; simpl; [|discriminate].
    destruct (negb allowEmpty && Nat.eqb (List.length (tl positionals)) 0) eqn:Hc;
      intros E; inversion E; subst.
    split; [exact (InstallArgs.map_from_ok _ _ Hm)|].
    destruct allowEmpty; [left; reflexivity|right].
    destruct (tl positionals); [discriminate|intros E'; discriminate].
  - destruct (tl positionals) as [|s t] eqn:Ht.
    + simpl. destruct allowEmpty; simpl; split; try discriminate; try (intros [E _]; discriminate); auto.
    + destruct (map_from (s :: t)) as [ps|e]; simpl.
      * rewrite andb_false_r. split; [discriminate|intros [_ E]; discriminate].
      * split; [discriminate|intros [_ E]; discriminate].
  - intros good bad rest Ht Hg Hb k. rewrite Ht, (CliArgs.map_from_prefix_fail _ _ _ Hg Hb).
    reflexivity.
Qed.

(** publish through the CLI ([src/src/commands.ts], lines 166-192): the deno arguments are publish, the node flags when a package.json is found, and the user arguments without --verbose; the cwd is kept, the pedantic-warnings variable is set to true only for node projects, and DENO_BIN_PATH wins. *)
Theorem publish_command_args (fs : FileSystem) (env : Env)
  (getOrDownloadBinPath : string -> bool -> res string) (folder : string) (cwd : dir)
  (rest : list string) (d : DenoRun)
  (Hflags : existsb (fun arg => String.eqb arg "-h" || String.eqb arg "--help"
                                || String.eqb arg "-v" || String.eqb arg "--version") rest = false)
  (H : runPublish fs env getOrDownloadBinPath folder cwd rest = Ok d) :
  cli ("publish" :: rest) = PublishCommand rest /\
  denoArgs d = ("publish" ::
                match find (has_pkg fs) (upto_lock fs (ancestors cwd)) with
                | Some _ => ["--unstable-bare-node-builtins"; "--unstable-sloppy-imports";
                             "--unstable-byonm"; "--no-check"]
                | None => []
                end ++ filter (fun arg => negb (String.eqb arg "--verbose")) rest)%list /\
  ~ In "--verbose" (denoArgs d) /\
  denoCwd d = cwd /\
  denoEnv d "DENO_DISABLE_PEDANTIC_NODE_WARNINGS"
  = match find (has_pkg fs) (upto_lock fs (ancestors cwd)) with
    | Some _ => Some "true"
    | None => env "DENO_DISABLE_PEDANTIC_NODE_WARNINGS"
    end /\
  (forall p, env "DENO_BIN_PATH" = Some p -> binPath d = p).
Proof.
  assert (Hcli : cli ("publish" :: rest) = PublishCommand rest).
  { unfold cli. cbn [existsb].
    assert (Eh : existsb (fun arg => String.eqb arg "-h" || String.eqb arg "--help") rest = false).
    { apply not_true_iff_false. intros E. apply existsb_exists in E as [x [Hx Hf]].
      assert (E2 : existsb (fun arg => String.eqb arg "-h" || String.eqb arg "--help"
                                || String.eqb arg "-v" || String.eqb arg "--version") rest = true).
      { apply existsb_exists. exists x. split; [exact Hx|]. rewrite Hf. reflexivity. }
      congruence. }
    assert (Ev : existsb (fun arg => String.eqb arg "-v" || String.eqb arg "--version") rest = false).
    { apply not_true_iff_false. intros E. apply existsb_exists in E as [x [Hx Hf]].
      assert (E2 : existsb (fun arg => String.eqb arg "-h" || String.eqb arg "--help"
                                || String.eqb arg "-v" || String.eqb arg "--version") rest = true).
      { apply existsb_exists. exists x. split; [exact Hx|]. rewrite <- orb_assoc, Hf, orb_true_r. reflexivity. }
      congruence. }
    cbn [String.eqb]. rewrite Eh, Ev. reflexivity. }
  unfold runPublish in H. unfold findProjectDir in H.
  destruct (findProjectDir_at fs cwd (initial_info cwd)) as [info|e] eqn:Hf; simpl in H; [|discriminate].
  rewrite find_walk in Hf.
  destruct (walk_unrecorded fs (ancestors cwd) (initial_info cwd) info eq_refl Hf) as [_ [Hj _]].
  unfold publish in H; cbn [publishPkgJsonPath binFolder canary publishArgs] in H.
  rewrite Hj in H.
  destruct (match env "DENO_BIN_PATH" with Some p => Ok p | None => _ end) as [bp|e] eqn:Hb;
    simpl in H; [|discriminate].
  inversion H; subst d; clear H. cbn [denoArgs denoCwd denoEnv binPath].
  split; [exact Hcli|]. split.
  { destruct (find (has_pkg fs) (upto_lock fs (ancestors cwd))); reflexivity. }
  split.
  { intros Hin. destruct Hin as [E|Hin]; [discriminate|].
    apply in_app_or in Hin as [Hin|Hin].
    - destruct (find (has_pkg fs) (upto_lock fs (ancestors cwd))); simpl in Hin;
        repeat (destruct Hin as [E|Hin]; [discriminate|]); contradiction.
    - exact (CliArgs.filter_not_in _ _ Hin). }
  split; [reflexivity|]. split.
  { destruct (find (has_pkg fs) (upto_lock fs (ancestors cwd))); simpl; reflexivity. }
  intros p Hp. rewrite Hp in Hb. injection Hb as <-. reflexivity.
Qed.

Lemma publish_command_args_witness :
  runPublish Scenarios.app_fs Scenarios.deno_env (fun _ _ => Ok "/cache/deno") "bin" ["app"]
    ["--dry-run"; "--verbose"]
  = Ok (mkDenoRun "/usr/bin/deno"
          ["publish"; "--unstable-bare-node-builtins"; "--unstable-sloppy-imports";
           "--unstable-byonm"; "--no-check"; "--dry-run"] ["app"]
          (env_set Scenarios.deno_env "DENO_DISABLE_PEDANTIC_NODE_WARNINGS" "true")) /\
  cli ["publish"; "--dry-run"; "--verbose"] = PublishCommand ["--dry-run"; "--verbose"].
Proof.
  split; [reflexivity|].
  exact (proj1 (publish_command_args Scenarios.app_fs Scenarios.deno_env (fun _ _ => Ok "/cache/deno")
                  "bin" ["app"] ["--dry-run"; "--verbose"]
                  (mkDenoRun "/usr/bin/deno"
                     ["publish"; "--unstable-bare-node-builtins"; "--unstable-sloppy-imports";
                      "--unstable-byonm"; "--no-check"; "--dry-run"] ["app"]
                     (env_set Scenarios.deno_env "DENO_DISABLE_PEDANTIC_NODE_WARNINGS" "true"))
                  eq_refl eq_refl)).
Defined.


(** prettyPrintRow: every label is padded on the left with spaces to the common width, which is the length of the longest label (0 for no rows). *)
Theorem prettyPrintRow_labels_aligned (rows : list (string * string)) :
  (forall row, In row rows ->
     String.length (padStart (fst row) (labelWidth rows)) = labelWidth rows /\
     padStart (fst row) (labelWidth rows)
     = spaces (labelWidth rows - String.length (fst row)) ++ fst row) /\
  (rows = [] -> labelWidth rows = 0) /\
  (rows <> [] -> exists row, In row rows /\ String.length (fst row) = labelWidth rows).
Proof.
  pose proof (HelpRows.fold_width rows 0) as W. cbv zeta in W.
  change (fold_left _ rows 0) with (labelWidth rows) in W.
  destruct W as [_ [Hall Hex]].
  split; [|split].
  - intros row Hin. specialize (Hall row Hin). unfold padStart.
    destruct (Nat.leb_spec (labelWidth rows) (String.length (fst row))) as [Hle|Hlt].
    + replace (labelWidth rows - String.length (fst row)) with 0 by lia. split; [lia|reflexivity].
    + split; [rewrite HelpRows.length_spaces_app; lia|reflexivity].
  - intros ->. reflexivity.
  - intros Hne. destruct Hex as [H0|H]; [|exact H].
    destruct rows as [|r t]; [contradiction|].
    destruct (String.length (fst r)) eqn:Hr.
    + exists r. split; [left; reflexivity|]. rewrite Hr, H0. reflexivity.
    + exfalso. specialize (Hall r (or_introl eq_refl)). lia.
Qed.

(** detectPackageManager accepts exactly package-lock.json, yarn.lock and pnpm-lock.yml, in their directory; a pnpm-lock.yaml or bun.lockb that the lockfile walk recognises is rejected. *)
Theorem detectPackageManager_lockfiles (lockfilePath : path) (a : Adapter) (fs : FileSystem) (d : dir) :
  (detectPackageManager lockfilePath = Ok a <->
   adapter_cwd a = fst lockfilePath /\
   ((snd lockfilePath = "package-lock.json" /\ kind a = Npm) \/
    (snd lockfilePath = "yarn.lock" /\ kind a = Yarn) \/
    (snd lockfilePath = "pnpm-lock.yml" /\ kind a = Pnpm))) /\
  (lock_at fs d = Some pnpm \/ lock_at fs d = Some bun ->
   exists f, fileExists fs (join d f) = true /\
   detectPackageManager (join d f) = Throw (PlainError "Could not determine package manager")).
Proof.
  split.
  - destruct lockfilePath as [dd f], a as [k c]. unfold detectPackageManager; cbn [fst snd kind adapter_cwd].
    destruct (String.eqb_spec f "package-lock.json") as [->|H1];
      [|destruct (String.eqb_spec f "yarn.lock") as [->|H2];
        [|destruct (String.eqb_spec f "pnpm-lock.yml") as [->|H3]]].
    + split; [intros E; injection E as <- <-; auto|].
      intros [-> [[_ ->]|[[E _]|[E _]]]]; [reflexivity|discriminate..].
    + split; [intros E; injection E as <- <-; auto|].
      intros [-> [[E _]|[[_ ->]|[E _]]]]; [discriminate|reflexivity|discriminate].
    + split; [intros E; injection E as <- <-; auto|].
      intros [-> [[E _]|[[E _]|[_ ->]]]]; [discriminate|discriminate|reflexivity].
    + split; [discriminate|]. intros [_ [[E _]|[[E _]|[E _]]]]; contradiction.
  - unfold lock_at. intros Hl.
    destruct (find (fun e => fileExists fs (join d (fst e))) lockfile_priority) as [[f n]|] eqn:Hf;
      [|destruct Hl as [E|E]; discriminate].
    apply find_some in Hf as [Hin Hx]. cbn [fst snd option_map] in *.
    exists f. split; [exact Hx|].
    unfold lockfile_priority in Hin.
    repeat (destruct Hin as [E|Hin]; [injection E as <- <-; destruct Hl as [E|E]; try discriminate; reflexivity|]).
    contradiction.
Qed.
